(** * LPK container loading: a shallow embedding of [lpk-loader.js] and
      [test-lpk.js], and the properties of their format sniffer, binary
      table parser, extension classifier and local-file-header scan. *)

From Stdlib Require Import ZArith Lia Ascii String Sorted.
From Stdlib.Init Require Import Byte.
From stdpp Require Import base option list gmap.

Local Open Scope Z_scope.

(** ** Bytes, buffers and JavaScript strings *)

(** An [ArrayBuffer] / Node [Buffer] is the list of its bytes. *)
Abbreviation buffer := (list byte).

(** A JavaScript string is the list of its UTF-16 code units. *)
Abbreviation jsstring := (list Z).

Definition byteZ (b : byte) : Z := Z.of_N (Byte.to_N b).

(** A string literal of the source, one code unit per character. *)
Definition js (s : string) : jsstring :=
  map (fun c => Z.of_N (N_of_ascii c)) (list_ascii_of_string s).

Definition byteLength (arrayBuffer : buffer) : Z := Z.of_nat (length arrayBuffer).

(** ** Completions: a call returns or throws *)

Inductive JsError : Type :=
  | RangeError
  | TypeError
  | SyntaxError
  | Error (message : string).

Inductive Completion (A : Type) : Type :=
  | Return (a : A)
  | Throw (e : JsError).
Arguments Return {A} a.
Arguments Throw {A} e.

#[global] Instance Completion_ret : MRet Completion := fun A a => Return a.

#[global] Instance Completion_bind : MBind Completion := fun A B k c =>
  match c with
  | Return a => k a
  | Throw e => Throw e
  end.

(** ** Platform operations on buffers *)

(** [ArrayBuffer.prototype.slice(begin, end)] and [Buffer.prototype.slice]:
    negative indices count from the end, everything is clamped to the
    buffer, an empty range gives an empty buffer. *)
Definition clampIndex (len i : Z) : Z :=
  if i <? 0 then Z.max (len + i) 0 else Z.min i len.

Definition slice (arrayBuffer : buffer) (begin end_ : Z) : buffer :=
  let len := byteLength arrayBuffer in
  let first := clampIndex len begin in
  let final := clampIndex len end_ in
  take (Z.to_nat (Z.max (final - first) 0)) (drop (Z.to_nat first) arrayBuffer).

(** [slice(begin)] with the end omitted. *)
Definition sliceFrom (arrayBuffer : buffer) (begin : Z) : buffer :=
  slice arrayBuffer begin (byteLength arrayBuffer).

(** [new Uint8Array(arrayBuffer, byteOffset, length)]: a view of [length]
    bytes, RangeError when it does not fit in the buffer. *)
Definition Uint8Array_view (arrayBuffer : buffer) (byteOffset length : Z)
  : Completion buffer :=
  if (0 <=? byteOffset) && (0 <=? length)
     && (byteOffset + length <=? byteLength arrayBuffer)
  then Return (take (Z.to_nat length) (drop (Z.to_nat byteOffset) arrayBuffer))
  else Throw RangeError.

(** Little-endian value of a run of bytes. *)
Fixpoint littleEndian (bs : buffer) : Z :=
  match bs with
  | [] => 0
  | b :: rest => byteZ b + 256 * littleEndian rest
  end.

(** [DataView.prototype.getUint16(offset, true)] and [getUint32(offset, true)];
    Node's [readUInt16LE] and [readUInt32LE] read and fail the same way. *)
Definition getUint (width : Z) (arrayBuffer : buffer) (offset : Z) : Completion Z :=
  bs ← Uint8Array_view arrayBuffer offset width; Return (littleEndian bs).

Definition getUint16 := getUint 2.
Definition getUint32 := getUint 4.
Definition readUInt16LE := getUint 2.
Definition readUInt32LE := getUint 4.

(** [uint8Array[i]]: [None] stands for [undefined]. *)
Definition byteAt (arrayBuffer : buffer) (i : Z) : option Z :=
  if i <? 0 then None else byteZ <$> arrayBuffer !! Z.to_nat i.

(** ** UTF-8 decoding (the decoder of the Encoding Standard, replacement mode) *)

Record Utf8State : Type := {
  code_point : Z;
  bytes_seen : Z;
  bytes_needed : Z;
  lower_boundary : Z;
  upper_boundary : Z
}.

Definition utf8_initial : Utf8State :=
  {| code_point := 0; bytes_seen := 0; bytes_needed := 0;
     lower_boundary := 128; upper_boundary := 191 |}.

Definition REPLACEMENT : Z := 65533.

(** A byte read while no sequence is open: the code points emitted and the
    next state. *)
Definition utf8_lead (b : Z) : list Z * Utf8State :=
  if b <=? 127 then ([b], utf8_initial)
  else if (194 <=? b) && (b <=? 223) then
    ([], {| code_point := Z.land b 31; bytes_seen := 0; bytes_needed := 1;
            lower_boundary := 128; upper_boundary := 191 |})
  else if (224 <=? b) && (b <=? 239) then
    ([], {| code_point := Z.land b 15; bytes_seen := 0; bytes_needed := 2;
            lower_boundary := if b =? 224 then 160 else 128;
            upper_boundary := if b =? 237 then 159 else 191 |})
  else if (240 <=? b) && (b <=? 244) then
    ([], {| code_point := Z.land b 7; bytes_seen := 0; bytes_needed := 3;
            lower_boundary := if b =? 240 then 144 else 128;
            upper_boundary := if b =? 244 then 143 else 191 |})
  else ([REPLACEMENT], utf8_initial).

Fixpoint utf8_run (st : Utf8State) (bs : buffer) : list Z :=
  match bs with
  | [] => if bytes_needed st =? 0 then [] else [REPLACEMENT]
  | b :: rest =>
      let b := byteZ b in
      if bytes_needed st =? 0 then
        let '(out, st') := utf8_lead b in out ++ utf8_run st' rest
      else if (lower_boundary st <=? b) && (b <=? upper_boundary st) then
        let cp := Z.lor (Z.shiftl (code_point st) 6) (Z.land b 63) in
        if bytes_seen st + 1 =? bytes_needed st
        then cp :: utf8_run utf8_initial rest
        else utf8_run {| code_point := cp; bytes_seen := bytes_seen st + 1;
                         bytes_needed := bytes_needed st;
                         lower_boundary := 128; upper_boundary := 191 |} rest
      else
        (* error; the byte is put back and read again as a lead byte *)
        let '(out, st') := utf8_lead b in
        REPLACEMENT :: out ++ utf8_run st' rest
  end.

(** Code points to UTF-16 code units. *)
Definition utf16_units (cp : Z) : jsstring :=
  if cp <? 65536 then [cp]
  else [55296 + Z.shiftr (cp - 65536) 10; 56320 + Z.land (cp - 65536) 1023].

(** [buffer.toString()] of Node: UTF-8 decoding, a byte order mark is kept. *)
Definition Buffer_toString (bs : buffer) : jsstring :=
  concat (map utf16_units (utf8_run utf8_initial bs)).

(** [new TextDecoder().decode(bytes)]: UTF-8 decoding, one leading byte
    order mark is dropped. *)
Definition TextDecoder_decode (bs : buffer) : jsstring :=
  match utf8_run utf8_initial bs with
  | 65279 :: cps => concat (map utf16_units cps)
  | cps => concat (map utf16_units cps)
  end.

(** [String.fromCharCode(...bytes)]. *)
Definition String_fromCharCode (bs : buffer) : jsstring := map byteZ bs.

(** ** String operations used by the loaders *)

(** White space and line terminators removed by [String.prototype.trim]. *)
Definition isWhiteSpace (c : Z) : bool :=
  ((9 <=? c) && (c <=? 13)) || (c =? 32) || (c =? 160) || (c =? 5760)
  || ((8192 <=? c) && (c <=? 8202)) || (c =? 8232) || (c =? 8233)
  || (c =? 8239) || (c =? 8287) || (c =? 12288) || (c =? 65279).

Fixpoint trimStart (s : jsstring) : jsstring :=
  match s with
  | c :: rest => if isWhiteSpace c then trimStart rest else s
  | [] => []
  end.

Definition trim (s : jsstring) : jsstring :=
  rev (trimStart (rev (trimStart s))).

(** [s.startsWith(c)] for a one-character search string. *)
Definition startsWith (s : jsstring) (c : Z) : bool :=
  match s with
  | c' :: _ => c' =? c
  | [] => false
  end.

(** [s.split(sep)] for a one-character separator: never empty. *)
Fixpoint split (sep : Z) (s : jsstring) : list jsstring :=
  match s with
  | [] => [[]]
  | c :: rest =>
      if c =? sep then [] :: split sep rest
      else match split sep rest with
           | seg :: segs => (c :: seg) :: segs
           | [] => [[c]]
           end
  end.

(** [array.pop()] as a value: the last element. *)
Definition pop (segs : list jsstring) : jsstring := List.last segs [].

(** [String.prototype.toLowerCase] on the letters A to Z.  The loaders only
    compare its result with lower-case ASCII words none of whose letters is
    the lower-case form of a character outside A to Z, and only keep it
    when the comparison succeeds. *)
Definition toLowerCase (s : jsstring) : jsstring :=
  map (fun c => if (65 <=? c) && (c <=? 90) then c + 32 else c) s.

(** [array.includes(x)] on an array of strings. *)
Definition includes (table : list jsstring) (x : jsstring) : bool :=
  bool_decide (x ∈ table).

(** ** Format detection ([LPKLoader.detectFormat], first loader) *)

Inductive FormatTag : Type := zip | json | binary.

Definition detectFormat (arrayBuffer : buffer) : FormatTag :=
  let uint8Array := arrayBuffer in
  (* Check for ZIP signature (PK) *)
  if bool_decide (byteAt uint8Array 0 = Some 80 ∧ byteAt uint8Array 1 = Some 75)
  then zip
  else
    (* Check for JSON (starts with { or [) *)
    let start := TextDecoder_decode (slice uint8Array 0 10) in
    if startsWith (trim start) 123 || startsWith (trim start) 91
    then json
    else binary.

(** ** Binary LPK files ([LPKLoader.parseBinaryLPK], first loader) *)

(** One record of the asset table: [{ name, type, size, dataOffset }]. *)
Record AssetRow : Type := {
  row_name : jsstring;
  row_type : Z;
  row_size : Z;
  row_dataOffset : Z
}.

(** An element of [assets.models] or [assets.textures]:
    [{ filename, data, type }]. *)
Record Asset : Type := {
  asset_filename : jsstring;
  asset_data : buffer;
  asset_type : jsstring
}.

(** ** A plain object used as a map from names to buffers *)

(** [object[name] = value] and [object[name]] on an object made by [{}] go
    through the prototype chain.  What a name finds on a prototype: a
    method (a data property, which can be written), an accessor that has
    no setter, the accessor [__proto__], or nothing. *)
Inductive Inherited : Type :=
  | Method
  | GetterOnly
  | ProtoAccessor
  | NotInherited.

(** The properties with a string key of [Object.prototype] and of
    [ArrayBuffer.prototype] (ECMAScript 2024 with its Annex B; [byteLength]
    is in every edition). *)
Definition OBJECT_PROTOTYPE_METHODS : list jsstring :=
  [js "constructor"; js "__defineGetter__"; js "__defineSetter__";
   js "hasOwnProperty"; js "__lookupGetter__"; js "__lookupSetter__";
   js "isPrototypeOf"; js "propertyIsEnumerable"; js "toString";
   js "valueOf"; js "toLocaleString"].

Definition ARRAYBUFFER_PROTOTYPE_GETTERS : list jsstring :=
  [js "byteLength"; js "maxByteLength"; js "resizable"; js "detached"].

Definition ARRAYBUFFER_PROTOTYPE_METHODS : list jsstring :=
  [js "constructor"; js "slice"; js "resize"; js "transfer";
   js "transferToFixedLength"].

Definition Object_prototype (name : jsstring) : Inherited :=
  if bool_decide (name = js "__proto__") then ProtoAccessor
  else if includes OBJECT_PROTOTYPE_METHODS name then Method
  else NotInherited.

Definition ArrayBuffer_prototype (name : jsstring) : Inherited :=
  if includes ARRAYBUFFER_PROTOTYPE_GETTERS name then GetterOnly
  else if includes ARRAYBUFFER_PROTOTYPE_METHODS name then Method
  else NotInherited.

(** The object [assets.data]: its own properties, and its prototype, which
    is [Object.prototype] ([None]) until an assignment to [__proto__] makes
    it the ArrayBuffer that is assigned ([Some] of its bytes; the prototype
    of that one is [ArrayBuffer.prototype], then [Object.prototype]). *)
Record DataObject : Type := {
  data_own : gmap jsstring buffer;
  data_proto : option buffer
}.

Definition emptyObject : DataObject := {| data_own := ∅; data_proto := None |}.

(** What [name] finds on the prototype chain of the object. *)
Definition inherited (object : DataObject) (name : jsstring) : Inherited :=
  match data_proto object with
  | Some _ =>
      match ArrayBuffer_prototype name with
      | NotInherited => Object_prototype name
      | found => found
      end
  | None => Object_prototype name
  end.

(** [object[name] = value] in strict code (the body of a class), [value]
    being an ArrayBuffer: an own property is written; otherwise an
    inherited accessor without a setter makes the assignment throw, the
    setter of [__proto__] makes [value] the prototype, and in every other
    case the property is created on the object. *)
Definition Object_set (object : DataObject) (name : jsstring) (value : buffer)
  : Completion DataObject :=
  let written := {| data_own := <[name := value]> (data_own object);
                    data_proto := data_proto object |} in
  match data_own object !! name with
  | Some _ => Return written
  | None =>
      match inherited object name with
      | GetterOnly => Throw TypeError
      | ProtoAccessor =>
          Return {| data_own := data_own object; data_proto := Some value |}
      | Method | NotInherited => Return written
      end
  end.

(** [result.assets].  A list that is empty stands for a property that was
    never created; [assets.data] is [None] until it is created. *)
Record Assets : Type := {
  assets_models : list Asset;
  assets_textures : list Asset;
  assets_data : option DataObject
}.

Definition noAssets : Assets :=
  {| assets_models := []; assets_textures := []; assets_data := None |}.

(** The object returned: [{ format, version, assets, metadata }]; [metadata]
    is always the empty object and is left out. *)
Record BinaryResult : Type := {
  format : FormatTag;
  version : Z;
  assets : Assets
}.

Definition LPK_MAGIC : jsstring := js "LPK" ++ [0].

Definition MAGIC_WARNING : string :=
  "LPK magic number mismatch, attempting to parse anyway...".

Definition MODEL_EXTENSIONS : list jsstring :=
  [js "gltf"; js "glb"; js "obj"; js "fbx"].

Definition TEXTURE_EXTENSIONS : list jsstring :=
  [js "png"; js "jpg"; js "jpeg"; js "webp"; js "gif"].

(** [name.split('.').pop().toLowerCase()]; 46 is the full stop. *)
Definition ext (name : jsstring) : jsstring :=
  toLowerCase (pop (split 46 name)).

(** The loop reading the asset table: [count] records from [offset] on. *)
Fixpoint readAssetTable (count : nat) (arrayBuffer : buffer) (offset : Z)
    (assets : list AssetRow) : Completion (list AssetRow) :=
  match count with
  | O => Return assets
  | S count' =>
      nameLength ← getUint16 arrayBuffer offset;
      let offset := offset + 2 in
      nameBytes ← Uint8Array_view arrayBuffer offset nameLength;
      let name := TextDecoder_decode nameBytes in
      let offset := offset + nameLength in
      type ← getUint32 arrayBuffer offset;
      let offset := offset + 4 in
      size ← getUint32 arrayBuffer offset;
      let offset := offset + 4 in
      dataOffset ← getUint32 arrayBuffer offset;
      let offset := offset + 4 in
      readAssetTable count' arrayBuffer offset
        (assets ++ [{| row_name := name; row_type := type;
                       row_size := size; row_dataOffset := dataOffset |}])
  end.

(** The body of the loop extracting asset data; in the last branch
    [result.assets.data = result.assets.data || {}] comes before the
    assignment under the name. *)
Definition extractAsset (arrayBuffer : buffer) (result : Assets) (asset : AssetRow)
  : Completion Assets :=
  let assetData :=
    slice arrayBuffer (row_dataOffset asset) (row_dataOffset asset + row_size asset) in
  let ext := ext (row_name asset) in
  if includes MODEL_EXTENSIONS ext then
    Return {| assets_models := assets_models result ++
                        [{| asset_filename := row_name asset; asset_data := assetData;
                            asset_type := ext |}];
              assets_textures := assets_textures result;
              assets_data := assets_data result |}
  else if includes TEXTURE_EXTENSIONS ext then
    Return {| assets_models := assets_models result;
              assets_textures := assets_textures result ++
                          [{| asset_filename := row_name asset; asset_data := assetData;
                              asset_type := ext |}];
              assets_data := assets_data result |}
  else
    let object := default emptyObject (assets_data result) in
    object' ← Object_set object (row_name asset) assetData;
    Return {| assets_models := assets_models result;
              assets_textures := assets_textures result;
              assets_data := Some object' |}.

(** [for (const asset of assets)]. *)
Fixpoint extractLoop (arrayBuffer : buffer) (result : Assets) (assets : list AssetRow)
  : Completion Assets :=
  match assets with
  | [] => Return result
  | asset :: rest =>
      result' ← extractAsset arrayBuffer result asset;
      extractLoop arrayBuffer result' rest
  end.

Definition extractAssets (arrayBuffer : buffer) (rows : list AssetRow)
  : Completion Assets :=
  extractLoop arrayBuffer noAssets rows.

(** The parser from the version field on, the cursor being at [offset]. *)
Definition parseFromVersion (arrayBuffer : buffer) (offset : Z)
  : Completion BinaryResult :=
  version ← getUint32 arrayBuffer offset;
  let offset := offset + 4 in
  assetCount ← getUint32 arrayBuffer offset;
  let offset := offset + 4 in
  rows ← readAssetTable (Z.to_nat assetCount) arrayBuffer offset [];
  assets ← extractAssets arrayBuffer rows;
  Return {| format := binary; version := version; assets := assets |}.

(** The whole parser: the warnings written to the console, and the
    completion of the call. *)
Definition parseBinaryLPK (arrayBuffer : buffer)
  : list string * Completion BinaryResult :=
  let offset := 0 in
  match Uint8Array_view arrayBuffer offset 4 with
  | Throw e => ([], Throw e)
  | Return magicBytes =>
      let magic := String_fromCharCode magicBytes in
      let offset := offset + 4 in
      if bool_decide (magic ≠ LPK_MAGIC)
      then ([MAGIC_WARNING], parseFromVersion arrayBuffer 0)
      else ([], parseFromVersion arrayBuffer offset)
  end.

(** ** ZIP-based LPK files: the loop of [parseZIPLPK] over the archive's files *)

(** What JSZip gives for one file: the [dir] flag, the outcome of
    [file.async('arraybuffer')] (or ['uint8array']), and the outcome of
    [file.async('string')], the text JSZip makes of the bytes. *)
Record ZipObject : Type := {
  zip_dir : bool;
  zip_async : Completion buffer;
  zip_string : Completion jsstring
}.

Section ZipFiles.
(** [JSON.parse], from the platform. *)
Context {JsonValue : Type} (JSON_parse : jsstring -> Completion JsonValue).

(** One turn of [for (const [filename, file] of Object.entries(zipFile.files))].
    [result.assets] starts as [{}] and its [data] property is never
    created, so the assignment in the json branch throws a TypeError. *)
Definition categorizeFile (result : Assets) (entry : jsstring * ZipObject)
  : Completion Assets :=
  let '(filename, file) := entry in
  if zip_dir file then Return result
  else
    let ext := ext filename in
    fileData ← zip_async file;
    if includes MODEL_EXTENSIONS ext then
      Return {| assets_models := assets_models result ++
                          [{| asset_filename := filename; asset_data := fileData;
                              asset_type := ext |}];
                assets_textures := assets_textures result;
                assets_data := assets_data result |}
    else if includes TEXTURE_EXTENSIONS ext then
      Return {| assets_models := assets_models result;
                assets_textures := assets_textures result ++
                            [{| asset_filename := filename; asset_data := fileData;
                                asset_type := ext |}];
                assets_data := assets_data result |}
    else if bool_decide (ext = js "json") then
      text ← zip_string file;
      jsonData ← JSON_parse text;
      Throw TypeError
    else Return result.

Fixpoint categorizeFiles (result : Assets) (files : list (jsstring * ZipObject))
  : Completion Assets :=
  match files with
  | [] => Return result
  | entry :: rest =>
      result' ← categorizeFile result entry;
      categorizeFiles result' rest
  end.
End ZipFiles.

(** ** The local-file-header scan ([test-lpk.js]) *)

(** An element of [files]: [{ filename, compressedSize, uncompressedSize, offset }],
    [offset] being where the payload starts. *)
Record FileEntry : Type := {
  file_filename : jsstring;
  file_compressedSize : Z;
  file_uncompressedSize : Z;
  file_offset : Z
}.

(** The test of the local file header signature (PK 03 04) at [offset]. *)
Definition signatureAt (zipData : buffer) (offset : Z) : bool :=
  bool_decide (byteAt zipData offset = Some 80)
  && bool_decide (byteAt zipData (offset + 1) = Some 75)
  && bool_decide (byteAt zipData (offset + 2) = Some 3)
  && bool_decide (byteAt zipData (offset + 3) = Some 4).

(** The branch taken at a signature: the entry pushed and the next value of
    the cursor. *)
Definition parseLocalFileHeader (zipData : buffer) (offset : Z)
  : Completion (FileEntry * Z) :=
  filenameLength ← readUInt16LE zipData (offset + 26);
  extraFieldLength ← readUInt16LE zipData (offset + 28);
  compressedSize ← readUInt32LE zipData (offset + 18);
  uncompressedSize ← readUInt32LE zipData (offset + 22);
  let filename :=
    Buffer_toString (slice zipData (offset + 30) (offset + 30 + filenameLength)) in
  Return ({| file_filename := filename;
             file_compressedSize := compressedSize;
             file_uncompressedSize := uncompressedSize;
             file_offset := offset + 30 + filenameLength + extraFieldLength |},
          offset + 30 + filenameLength + extraFieldLength + compressedSize).

(** [while (offset < zipData.length - 30) { ... }].  Every turn moves the
    cursor forward, so the loop takes at most [zipData.length] turns;
    [None] is a run that needs more turns than [fuel]. *)
Fixpoint scanLoop (fuel : nat) (zipData : buffer) (offset : Z)
    (files : list FileEntry) : option (Completion (list FileEntry)) :=
  if negb (offset <? byteLength zipData - 30) then Some (Return files)
  else
    match fuel with
    | O => None
    | S fuel' =>
        if signatureAt zipData offset then
          match parseLocalFileHeader zipData offset with
          | Throw e => Some (Throw e)
          | Return (entry, next) => scanLoop fuel' zipData next (files ++ [entry])
          end
        else scanLoop fuel' zipData (offset + 1) files
    end.

(** The script from the buffer read from disk to [files]. *)
Definition scanFiles (zipData : buffer) : option (Completion (list FileEntry)) :=
  scanLoop (length zipData) zipData 0 [].

Definition analyzeLPK (lpkData : buffer) : option (Completion (list FileEntry)) :=
  let zipData := sliceFrom lpkData 8 in
  scanFiles zipData.

(** [LPKLoader.extractZipData] of the second loader: skip the 8-byte header. *)
Definition extractZipData (arrayBuffer : buffer) : buffer :=
  sliceFrom arrayBuffer 8.

(** * Notions in which the properties are stated *)

(** ** Fields and ranges of a buffer *)

(** The bytes a fixed-width read covers, as a plain expression. *)
Definition fieldAt (width : Z) (arrayBuffer : buffer) (offset : Z) : Z :=
  littleEndian (take (Z.to_nat width) (drop (Z.to_nat offset) arrayBuffer)).

(** The run of [size] bytes found at the absolute position [offset] of the
    buffer: [buffer[offset .. offset + size)]. *)
Definition bytesAt (arrayBuffer : buffer) (offset size : Z) : buffer :=
  take (Z.to_nat size) (drop (Z.to_nat offset) arrayBuffer).

(** ** The tests of the sniffer *)

(** The two tests of [detectFormat], as predicates on the buffer. *)
Definition hasPK (arrayBuffer : buffer) : Prop :=
  byteAt arrayBuffer 0 = Some 80 /\ byteAt arrayBuffer 1 = Some 75.

Definition looksLikeJSON (arrayBuffer : buffer) : bool :=
  let start := TextDecoder_decode (slice arrayBuffer 0 10) in
  startsWith (trim start) 123 || startsWith (trim start) 91.

(** The 8-byte header of the analysed LPK file (B8 FB 46 7E, the other four
    bytes taken as zero) followed by the start of a ZIP archive. *)
Definition lpkHeaderSample : buffer :=
  [xb8; xfb; x46; x7e; x00; x00; x00; x00; x50; x4b; x03; x04].

(** ** Rows of the binary table and their record in the manifest *)

(** The rows that [parseBinaryLPK] reads from a buffer: its local [assets]
    when the table loop is over. *)
Definition assetTable (arrayBuffer : buffer) : Completion (list AssetRow) :=
  magicBytes ← Uint8Array_view arrayBuffer 0 4;
  let offset :=
    if bool_decide (String_fromCharCode magicBytes ≠ LPK_MAGIC) then 0 else 4 in
  version ← getUint32 arrayBuffer offset;
  assetCount ← getUint32 arrayBuffer (offset + 4);
  readAssetTable (Z.to_nat assetCount) arrayBuffer (offset + 4 + 4) [].

(** What the extraction loop slices and stores for a row. *)
Definition rowData (arrayBuffer : buffer) (row : AssetRow) : buffer :=
  slice arrayBuffer (row_dataOffset row) (row_dataOffset row + row_size row).

Definition rowAsset (arrayBuffer : buffer) (row : AssetRow) : Asset :=
  {| asset_filename := row_name row; asset_data := rowData arrayBuffer row;
     asset_type := ext (row_name row) |}.

(** The branch of the extraction loop a row takes. *)
Definition isModel (row : AssetRow) : bool :=
  includes MODEL_EXTENSIONS (ext (row_name row)).

Definition isTexture (row : AssetRow) : bool :=
  negb (isModel row) && includes TEXTURE_EXTENSIONS (ext (row_name row)).

Definition isOther (row : AssetRow) : bool :=
  negb (isModel row) && negb (includes TEXTURE_EXTENSIONS (ext (row_name row))).

(** The last row of the table that is assigned to [assets.data] under [name]. *)
Definition lastWriter (rows : list AssetRow) (name : jsstring) : option AssetRow :=
  last (filter (fun row => isOther row = true /\ row_name row = name) rows).

(** The own properties of [assets.data] (none while it is not created),
    which are what [Object.keys] and [Object.entries] show of it, and its
    prototype when an assignment has changed it. *)
Definition ownData (result : Assets) : gmap jsstring buffer :=
  match assets_data result with
  | Some object => data_own object
  | None => ∅
  end.

Definition dataPrototype (result : Assets) : option buffer :=
  match assets_data result with
  | Some object => data_proto object
  | None => None
  end.

(** A row whose name is not [__proto__], and a table of such rows. *)
Definition plainRow (row : AssetRow) : Prop := row_name row ≠ js "__proto__".

Definition plainRows (rows : list AssetRow) : Prop := Forall plainRow rows.

(** The row is the last of the table with its name. *)
Definition lastOfName (rows : list AssetRow) (row : AssetRow) : Prop :=
  exists before after,
    rows = before ++ row :: after
    /\ Forall (fun row' => row_name row' ≠ row_name row) after.

(** A row is recorded in the manifest: pushed on [models] or [textures], or
    assigned to [data] under its name, where the last assignment to a name
    is the one that stays. *)
Definition recorded (arrayBuffer : buffer) (rows : list AssetRow) (result : Assets)
    (row : AssetRow) : Prop :=
  (isModel row = true /\ rowAsset arrayBuffer row ∈ assets_models result)
  \/ (isTexture row = true /\ rowAsset arrayBuffer row ∈ assets_textures result)
  \/ (isOther row = true /\
      exists row', lastWriter rows (row_name row) = Some row'
        /\ ownData result !! row_name row = Some (rowData arrayBuffer row')).

(** The entry of the row is in the manifest as the loop made it: an
    element of [models] or of [textures], or the value of [data] under the
    name of the row. *)
Definition entryKept (arrayBuffer : buffer) (result : Assets) (row : AssetRow) : Prop :=
  (isModel row = true /\ rowAsset arrayBuffer row ∈ assets_models result)
  \/ (isTexture row = true /\ rowAsset arrayBuffer row ∈ assets_textures result)
  \/ (isOther row = true
      /\ ownData result !! row_name row = Some (rowData arrayBuffer row)).

Definition rowNonneg (row : AssetRow) : Prop :=
  0 <= row_size row /\ 0 <= row_dataOffset row.

(** A table of two rows, [a.PNG] (2 bytes at 46) and [b] (3 bytes at 48),
    after the magic, version 1 and the count. *)
Definition sampleLPK : buffer :=
  [x4c; x50; x4b; x00; x01; x00; x00; x00; x02; x00; x00; x00;
   x05; x00; x61; x2e; x50; x4e; x47; x07; x00; x00; x00; x02;
   x00; x00; x00; x2e; x00; x00; x00; x01; x00; x62; x09; x00;
   x00; x00; x03; x00; x00; x00; x30; x00; x00; x00; xaa; xbb;
   x01; x02; x03].

Definition sampleRows : list AssetRow :=
  [{| row_name := js "a.PNG"; row_type := 7; row_size := 2; row_dataOffset := 46 |};
   {| row_name := js "b"; row_type := 9; row_size := 3; row_dataOffset := 48 |}].

(** The same table, but row [b] declares 5 bytes at 49 in a buffer of 51. *)
Definition truncatedLPK : buffer :=
  [x4c; x50; x4b; x00; x01; x00; x00; x00; x02; x00; x00; x00;
   x05; x00; x61; x2e; x50; x4e; x47; x07; x00; x00; x00; x02;
   x00; x00; x00; x2e; x00; x00; x00; x01; x00; x62; x09; x00;
   x00; x00; x05; x00; x00; x00; x31; x00; x00; x00; xaa; xbb;
   x01; x02; x03].

Definition truncatedRow : AssetRow :=
  {| row_name := js "b"; row_type := 9; row_size := 5; row_dataOffset := 49 |}.

Definition truncatedRows : list AssetRow :=
  [{| row_name := js "a.PNG"; row_type := 7; row_size := 2; row_dataOffset := 46 |};
   truncatedRow].

(** A buffer without the magic: version 3 at 0, one row [m] (2 bytes at 23). *)
Definition noMagicLPK : buffer :=
  [x03; x00; x00; x00; x01; x00; x00; x00; x01; x00; x6d; x00;
   x00; x00; x00; x02; x00; x00; x00; x17; x00; x00; x00; x11;
   x22].

(** A table of two rows in bounds, [__proto__] (1 byte at 59) and
    [byteLength] (1 byte at 60), after the magic, version 1 and the count. *)
Definition protoLPK : buffer :=
  [x4c; x50; x4b; x00; x01; x00; x00; x00; x02; x00; x00; x00;
   x09; x00; x5f; x5f; x70; x72; x6f; x74; x6f; x5f; x5f;
   x09; x00; x00; x00; x01; x00; x00; x00; x3b; x00; x00; x00;
   x0a; x00; x62; x79; x74; x65; x4c; x65; x6e; x67; x74; x68;
   x09; x00; x00; x00; x01; x00; x00; x00; x3c; x00; x00; x00;
   xaa; xbb].

Definition protoRows : list AssetRow :=
  [{| row_name := js "__proto__"; row_type := 9; row_size := 1; row_dataOffset := 59 |};
   {| row_name := js "byteLength"; row_type := 9; row_size := 1; row_dataOffset := 60 |}].

(** A table of two rows named [b] in a buffer of 45 bytes: the first
    declares 5 bytes at 43, the second 3 bytes at 42. *)
Definition duplicateLPK : buffer :=
  [x4c; x50; x4b; x00; x01; x00; x00; x00; x02; x00; x00; x00;
   x01; x00; x62; x09; x00; x00; x00; x05; x00; x00; x00; x2b; x00; x00; x00;
   x01; x00; x62; x09; x00; x00; x00; x03; x00; x00; x00; x2a; x00; x00; x00;
   xaa; xbb; xcc].

Definition clampedRow : AssetRow :=
  {| row_name := js "b"; row_type := 9; row_size := 5; row_dataOffset := 43 |}.

Definition duplicateRows : list AssetRow :=
  [clampedRow;
   {| row_name := js "b"; row_type := 9; row_size := 3; row_dataOffset := 42 |}].

(** What holds of the entries of a manifest when each is the exact run of
    bytes its row declares. *)
Definition exactEntries (arrayBuffer : buffer) (rows : list AssetRow) (result : Assets)
  : Prop :=
  (forall a, a ∈ assets_models result ++ assets_textures result ->
     exists row, row ∈ rows /\ asset_filename a = row_name row
       /\ asset_data a = bytesAt arrayBuffer (row_dataOffset row) (row_size row)
       /\ Z.of_nat (length (asset_data a)) = row_size row)
  /\ (forall name d, ownData result !! name = Some d ->
     exists row, row ∈ rows /\ row_name row = name
       /\ d = bytesAt arrayBuffer (row_dataOffset row) (row_size row)
       /\ Z.of_nat (length d) = row_size row).

(** The edge-case policy of the specification, in its words: an entry whose
    [dataOffset + size] exceeds the buffer length is a [TruncatedEntry]
    marker, any other entry is its bytes. *)
Inductive EntryOutcome : Type :=
  | Extracted (bytes : buffer)
  | TruncatedEntry.

Definition spec_extractEntry (arrayBuffer : buffer) (row : AssetRow) : EntryOutcome :=
  if byteLength arrayBuffer <? row_dataOffset row + row_size row
  then TruncatedEntry
  else Extracted (bytesAt arrayBuffer (row_dataOffset row) (row_size row)).

(** ** Categories by extension *)

(** The suffix table of the specification, in its words. *)
Inductive Category : Type := model | texture | data | unknown.

Definition suffixTable : list (jsstring * Category) :=
  [(js "gltf", model); (js "glb", model); (js "obj", model); (js "fbx", model);
   (js "png", texture); (js "jpg", texture); (js "jpeg", texture);
   (js "webp", texture); (js "gif", texture);
   (js "json", data)].

Fixpoint lookupSuffix (table : list (jsstring * Category)) (suffix : jsstring)
  : Category :=
  match table with
  | [] => unknown
  | (word, category) :: rest =>
      if bool_decide (suffix = word) then category else lookupSuffix rest suffix
  end.

(** The category of a name: the table applied to the lower-cased text after
    the last full stop of the name (to the whole name when it has none). *)
Definition categoryOf (name : jsstring) : Category :=
  lookupSuffix suffixTable (ext name).

(** A file of the archive that is not a directory, whose bytes JSZip
    delivers and whose text is the UTF-8 reading of these bytes. *)
Definition plainFile (bytes : buffer) : ZipObject :=
  {| zip_dir := false; zip_async := Return bytes;
     zip_string := Return (Buffer_toString bytes) |}.

(** The three ways an entry is kept. *)
Definition pushModel (result : Assets) (a : Asset) : Assets :=
  {| assets_models := assets_models result ++ [a];
     assets_textures := assets_textures result;
     assets_data := assets_data result |}.

Definition pushTexture (result : Assets) (a : Asset) : Assets :=
  {| assets_models := assets_models result;
     assets_textures := assets_textures result ++ [a];
     assets_data := assets_data result |}.


(** ** Positions and records of the local-file-header scan *)

(** The cursor positions at which the loop finds a signature, in order. *)
Fixpoint headerOffsets (fuel : nat) (zipData : buffer) (offset : Z) : list Z :=
  if negb (offset <? byteLength zipData - 30) then []
  else
    match fuel with
    | O => []
    | S fuel' =>
        if signatureAt zipData offset then
          match parseLocalFileHeader zipData offset with
          | Throw e => []
          | Return (entry, next) => offset :: headerOffsets fuel' zipData next
          end
        else headerOffsets fuel' zipData (offset + 1)
    end.

(** All positions of the buffer at which the four signature bytes stand. *)
Definition signatureOccurrences (zipData : buffer) : list Z :=
  filter (fun i => signatureAt zipData i = true)
         (map Z.of_nat (seq 0 (length zipData))).

(** The fields of the record at [p], as plain expressions: filename length
    at +26 and extra-field length at +28 (uint16), compressed size at +18
    and uncompressed size at +22 (uint32), all little-endian. *)
Definition filenameLengthAt (zipData : buffer) (p : Z) : Z := fieldAt 2 zipData (p + 26).
Definition extraFieldLengthAt (zipData : buffer) (p : Z) : Z := fieldAt 2 zipData (p + 28).
Definition compressedSizeAt (zipData : buffer) (p : Z) : Z := fieldAt 4 zipData (p + 18).
Definition uncompressedSizeAt (zipData : buffer) (p : Z) : Z := fieldAt 4 zipData (p + 22).

(** The bytes of the name: [filenameLength] bytes right after the 30-byte
    record (fewer when the buffer ends before). *)
Definition filenameBytesAt (zipData : buffer) (p : Z) : buffer :=
  bytesAt zipData (p + 30) (filenameLengthAt zipData p).

(** Where the payload starts, and the bytes an entry takes in all. *)
Definition payloadOffsetAt (zipData : buffer) (p : Z) : Z :=
  p + 30 + filenameLengthAt zipData p + extraFieldLengthAt zipData p.

Definition span (zipData : buffer) (p : Z) : Z :=
  30 + filenameLengthAt zipData p + extraFieldLengthAt zipData p
  + compressedSizeAt zipData p.

Definition entryAt (zipData : buffer) (p : Z) : FileEntry :=
  {| file_filename := Buffer_toString (filenameBytesAt zipData p);
     file_compressedSize := compressedSizeAt zipData p;
     file_uncompressedSize := uncompressedSizeAt zipData p;
     file_offset := payloadOffsetAt zipData p |}.

(** A ZIP archive with one stored file, [a], whose four bytes are
    50 4B 03 04: local header and name (31 bytes), payload, central
    directory and end record; 104 bytes. *)
Definition storedZip : buffer :=
  [x50; x4b; x03; x04; x0a; x00; x00; x00; x00; x00; x00; x00; x00; x00; x45;
   x25; xc6; xba; x04; x00; x00; x00; x04; x00; x00; x00; x01; x00; x00; x00;
   x61; x50; x4b; x03; x04; x50; x4b; x01; x02; x0a; x00; x0a; x00; x00; x00;
   x00; x00; x00; x00; x00; x00; x45; x25; xc6; xba; x04; x00; x00; x00; x04;
   x00; x00; x00; x01; x00; x00; x00; x00; x00; x00; x00; x00; x00; x00; x00;
   x00; x00; x00; x00; x00; x00; x61; x50; x4b; x05; x06; x00; x00; x00; x00;
   x01; x00; x01; x00; x2f; x00; x00; x00; x23; x00; x00; x00; x00; x00].

(** The 8-byte header of an LPK file. *)
Definition lpkHeader : buffer := [xb8; xfb; x46; x7e; x00; x00; x00; x00].

(** A body of 35 bytes that ends in the middle of a name: a local file
    header that declares a name of 100 bytes and a payload of 7, followed
    by the five bytes of [abcde]. *)
Definition truncatedBody : buffer :=
  [x50; x4b; x03; x04; x00; x00; x00; x00; x00; x00; x00; x00; x00; x00; x00;
   x00; x00; x00; x07; x00; x00; x00; x07; x00; x00; x00; x64; x00; x00; x00;
   x61; x62; x63; x64; x65].

(** * The rest of the two loaders and of the analysis script *)

(** ** Lookup in a parsed file ([LPKLoader.getAsset], first loader) *)

(** What [getAsset] returns: an element of [models] or [textures], the
    value of [assets.data[name]], or [null] when there is no [assets.data].
    The value of [assets.data[name]] is a buffer, [undefined] ([None]), or
    something built in that the name finds on the prototype chain (a method
    of [Object.prototype] or [ArrayBuffer.prototype], or [Object.prototype]
    itself for [__proto__]). *)
Inductive AssetLookup : Type :=
  | FoundAsset (a : Asset)
  | DataValue (v : option buffer)
  | BuiltInValue (name : jsstring)
  | NullResult.

(** [object[name]]: an own property, or what the prototype chain gives.
    The getters of [ArrayBuffer.prototype] throw on a receiver that is not
    an ArrayBuffer; the getter of [__proto__] gives the prototype. *)
Definition Object_get (object : DataObject) (name : jsstring) : Completion AssetLookup :=
  match data_own object !! name with
  | Some value => Return (DataValue (Some value))
  | None =>
      match inherited object name with
      | GetterOnly => Throw TypeError
      | ProtoAccessor =>
          match data_proto object with
          | Some value => Return (DataValue (Some value))
          | None => Return (BuiltInValue name)
          end
      | Method => Return (BuiltInValue name)
      | NotInherited => Return (DataValue None)
      end
  end.

Definition getAsset (lpkData_assets : Assets) (name : jsstring)
  : Completion AssetLookup :=
  match List.find (fun m => bool_decide (asset_filename m = name))
                  (assets_models lpkData_assets) with
  | Some m => Return (FoundAsset m)
  | None =>
      match List.find (fun t => bool_decide (asset_filename t = name))
                      (assets_textures lpkData_assets) with
      | Some t => Return (FoundAsset t)
      | None =>
          match assets_data lpkData_assets with
          | Some object => Object_get object name
          | None => Return NullResult
          end
      end
  end.

(** ** The whole of [parseZIPLPK] and the dispatch of [load] (first loader) *)

(** [zipFile.files]: the entries in the order [Object.entries] gives them,
    each name once. *)
Abbreviation ZipFiles := (list (jsstring * ZipObject)).

(** [new JSZip().loadAsync(data)] when the library is there, [None] when
    [typeof JSZip] is ['undefined']. *)
Abbreviation JSZipLibrary := (option (buffer -> Completion ZipFiles)).

(** [zipFile.files[name]]. *)
Fixpoint filesLookup (files : ZipFiles) (name : jsstring) : option ZipObject :=
  match files with
  | [] => None
  | (filename, file) :: rest =>
      if bool_decide (filename = name) then Some file else filesLookup rest name
  end.

Definition JSZIP_REQUIRED : string :=
  "JSZip library required for ZIP-based LPK files. Include: https://cdnjs.cloudflare.com/ajax/libs/jszip/3.10.1/jszip.min.js".

(** The object returned by [parseZIPLPK]: [{ format: 'zip', assets, metadata }];
    [zip_metadata] is [None] while [metadata] is the empty object it starts
    as. *)
Record ZipResult (JsonValue : Type) : Type := {
  zip_assets : Assets;
  zip_metadata : option JsonValue
}.
Arguments zip_assets {JsonValue} _.
Arguments zip_metadata {JsonValue} _.

Section FirstLoader.
Context {JsonValue : Type} (JSON_parse : jsstring -> Completion JsonValue).
Context (JSZip : JSZipLibrary).

Definition parseZIPLPK (arrayBuffer : buffer) : Completion (ZipResult JsonValue) :=
  match JSZip with
  | Some loadAsync =>
      zipFile ← loadAsync arrayBuffer;
      (* Extract manifest if present *)
      metadata ← match filesLookup zipFile (js "manifest.json") with
                 | Some file =>
                     text ← zip_string file;
                     manifest ← JSON_parse text;
                     Return (Some manifest)
                 | None => Return None
                 end;
      (* Process all files in the ZIP *)
      assets ← categorizeFiles JSON_parse noAssets zipFile;
      Return {| zip_assets := assets; zip_metadata := metadata |}
  | None => Throw (Error JSZIP_REQUIRED)
  end.

(** [parseJSONLPK], which is [JSON.parse] and three property reads, is
    taken as it comes. *)
Context {JsonLPK : Type} (parseJSONLPK : buffer -> Completion JsonLPK).

Inductive LoadResult : Type :=
  | LoadedZIP (result : ZipResult JsonValue)
  | LoadedJSON (result : JsonLPK)
  | LoadedBinary (result : BinaryResult).

(** [load], from the buffer on (reading the file or fetching the URL comes
    before). *)
Definition load (arrayBuffer : buffer) : Completion LoadResult :=
  match detectFormat arrayBuffer with
  | zip => result ← parseZIPLPK arrayBuffer; Return (LoadedZIP result)
  | json => result ← parseJSONLPK arrayBuffer; Return (LoadedJSON result)
  | binary => result ← snd (parseBinaryLPK arrayBuffer); Return (LoadedBinary result)
  end.
End FirstLoader.
Arguments LoadResult : clear implicits.

(** ** The second loader ([LPKLoader.loadLPK] and what it calls) *)

(** [b.toString(16)] for a byte, and [padStart(2, '0')]; 48 is the digit
    zero, 97 the letter a. *)
Definition hexDigit (d : Z) : Z := if d <? 10 then 48 + d else 87 + d.

Definition toString16 (b : Z) : jsstring :=
  if b <? 16 then [hexDigit b] else [hexDigit (b / 16); hexDigit (b mod 16)].

Definition padStart (s : jsstring) (targetLength : nat) (fill : Z) : jsstring :=
  replicate (targetLength - length s) fill ++ s.

Definition byteHex (b : byte) : jsstring := padStart (toString16 (byteZ b)) 2 48.

(** [strings.join(separator)] for a one-character separator. *)
Fixpoint join (separator : Z) (strings : list jsstring) : jsstring :=
  match strings with
  | [] => []
  | [s] => s
  | s :: rest => s ++ separator :: join separator rest
  end.

(** The object returned by [parseLPKStructure]:
    [{ header, totalSize, zipOffset, zipSize }]. *)
Record LPKStructure : Type := {
  lpk_header : jsstring;
  lpk_totalSize : Z;
  lpk_zipOffset : Z;
  lpk_zipSize : Z
}.

Definition parseLPKStructure (arrayBuffer : buffer) : Completion LPKStructure :=
  header ← Uint8Array_view arrayBuffer 0 8;
  (* Convert header to hex string *)
  let headerHex := concat (map byteHex header) in
  Return {| lpk_header := headerHex;
            lpk_totalSize := byteLength arrayBuffer;
            lpk_zipOffset := 8;
            lpk_zipSize := byteLength arrayBuffer - 8 |}.

(** An element of the [assets] object of [loadZipContents]:
    [{ name, data, size }], or [{ name, encrypted: true, error }] when the
    file could not be read. *)
Inductive ZipAsset : Type :=
  | ExtractedAsset (name : jsstring) (content : buffer) (size : Z)
  | EncryptedAsset (name : jsstring) (error : JsError).

(** [obj[key] = value] on an object used as a map: a new key goes last, a
    key that is there keeps its place. *)
Fixpoint setProperty {V : Type} (obj : list (jsstring * V)) (key : jsstring) (value : V)
  : list (jsstring * V) :=
  match obj with
  | [] => [(key, value)]
  | (k, v) :: rest =>
      if bool_decide (k = key) then (k, value) :: rest
      else (k, v) :: setProperty rest key value
  end.

Definition JSZIP_IS_REQUIRED : string := "JSZip library is required for LPK loading".

(** The object [assets] of [loadZipContents], made by [{}]: its own
    properties in the order they were created, and its prototype,
    [Object.prototype] ([None]) until an assignment to [__proto__] makes it
    the element assigned.  The loop creates the properties in the order
    [Object.entries] gives for [zipFile.files] (names that are array
    indices first), which is then the order [Object.entries] gives for
    [assets] too. *)
Record ExtractedFiles : Type := {
  files_own : list (jsstring * ZipAsset);
  files_proto : option ZipAsset
}.

Definition noFiles : ExtractedFiles := {| files_own := []; files_proto := None |}.

(** [assets[filename] = element]: the setter of [__proto__] makes the
    element the prototype; every other property that the object can
    inherit (from [Object.prototype], or from an element, whose properties
    are [name], [data], [size], [encrypted], [error]) can be written, so
    the assignment creates or writes an own property. *)
Definition assignFile (assets : ExtractedFiles) (filename : jsstring)
    (element : ZipAsset) : ExtractedFiles :=
  if bool_decide (filename = js "__proto__")
  then {| files_own := files_own assets; files_proto := Some element |}
  else {| files_own := setProperty (files_own assets) filename element;
          files_proto := files_proto assets |}.

(** One turn of the loop of [loadZipContents]; the console is left out. *)
Definition extractFile (assets : ExtractedFiles) (entry : jsstring * ZipObject)
  : ExtractedFiles :=
  let '(filename, file) := entry in
  if zip_dir file then assets
  else
    match zip_async file with
    | Return content =>
        assignFile assets filename
          (ExtractedAsset filename content (byteLength content))
    | Throw error => assignFile assets filename (EncryptedAsset filename error)
    end.

(** [loadZipContents]; the password is only mentioned in a warning. *)
Definition loadZipContents (JSZip : JSZipLibrary) (zipData : buffer)
    (password : option jsstring) : Completion ExtractedFiles :=
  match JSZip with
  | None => Throw (Error JSZIP_IS_REQUIRED)
  | Some loadAsync =>
      zipFile ← loadAsync zipData;
      Return (foldl extractFile noFiles zipFile)
  end.

(** [extractStrings(data, minLength)]: the runs of printable ASCII. *)
Definition isPrintable (byte : Z) : bool := (32 <=? byte) && (byte <=? 126).

(** [if (current.length >= minLength) strings.push(current)]. *)
Definition pushIfLong (minLength : Z) (strings : list jsstring) (current : jsstring)
  : list jsstring :=
  if minLength <=? Z.of_nat (length current) then strings ++ [current] else strings.

Fixpoint extractStringsLoop (minLength : Z) (data : buffer) (current : jsstring)
    (strings : list jsstring) : list jsstring :=
  match data with
  | [] => pushIfLong minLength strings current
  | b :: rest =>
      let byte := byteZ b in
      if isPrintable byte
      then extractStringsLoop minLength rest (current ++ [byte]) strings
      else extractStringsLoop minLength rest [] (pushIfLong minLength strings current)
  end.

Definition extractStrings (data : buffer) (minLength : Z) : list jsstring :=
  take 20 (extractStringsLoop minLength data [] []).

(** What [parseLandFile] and [parseEditorFile] return:
    [{ type, size, format: 'unknown', rawData }]. *)
Inductive ParsedKind : Type := land_data | editor_data.

Record ParsedFile : Type := {
  parsed_type : ParsedKind;
  parsed_size : Z;
  parsed_rawData : buffer
}.

Definition parseLandFile (content : buffer) : ParsedFile :=
  {| parsed_type := land_data; parsed_size := byteLength content;
     parsed_rawData := content |}.

Definition parseEditorFile (content : buffer) : ParsedFile :=
  {| parsed_type := editor_data; parsed_size := byteLength content;
     parsed_rawData := content |}.

(** What [parseBinaryMeta] returns:
    [{ type: 'binary_meta', header: { size, firstBytes }, possibleStrings }]. *)
Record BinaryMeta : Type := {
  meta_size : Z;
  meta_firstBytes : jsstring;
  meta_possibleStrings : list jsstring
}.

Definition parseBinaryMeta (content : buffer) : BinaryMeta :=
  {| meta_size := byteLength content;
     meta_firstBytes := join 32 (map byteHex (slice content 0 16));
     meta_possibleStrings := extractStrings content 4 |}.

(** [s.endsWith(suffix)]. *)
Definition endsWith (s suffix : jsstring) : bool :=
  bool_decide (suffix `suffix_of` s).

(** [this.loadedAssets] of the second loader. *)
Inductive Metadata (JsonValue : Type) : Type :=
  | JsonMetadata (value : JsonValue)
  | BinaryMetadata (descriptor : BinaryMeta).
Arguments JsonMetadata {JsonValue} _.
Arguments BinaryMetadata {JsonValue} _.

Record LoadedAssets (JsonValue : Type) : Type := {
  loaded_models : list ParsedFile;
  loaded_textures : list ParsedFile;
  loaded_materials : list ParsedFile;
  loaded_animations : list ParsedFile;
  loaded_metadata : option (Metadata JsonValue)
}.
Arguments loaded_models {JsonValue} _.
Arguments loaded_textures {JsonValue} _.
Arguments loaded_materials {JsonValue} _.
Arguments loaded_animations {JsonValue} _.
Arguments loaded_metadata {JsonValue} _.

Section SecondLoader.
Context {JsonValue : Type} (JSON_parse : jsstring -> Completion JsonValue).

(** [parseMetaFile]: the JSON value when the text parses, the binary
    descriptor when [JSON.parse] throws. *)
Definition parseMetaFile (content : buffer) : Metadata JsonValue :=
  let text := TextDecoder_decode content in
  match JSON_parse text with
  | Return value => JsonMetadata value
  | Throw e => BinaryMetadata (parseBinaryMeta content)
  end.

(** One turn of the loop of [parseAssets]; nothing in its [try] throws. *)
Definition parseAsset (loaded : LoadedAssets JsonValue) (entry : jsstring * ZipAsset)
  : LoadedAssets JsonValue :=
  let '(filename, asset) := entry in
  match asset with
  | EncryptedAsset _ _ => loaded
  | ExtractedAsset _ content _ =>
      if endsWith filename (js ".meta") then
        {| loaded_models := loaded_models loaded;
           loaded_textures := loaded_textures loaded;
           loaded_materials := loaded_materials loaded;
           loaded_animations := loaded_animations loaded;
           loaded_metadata := Some (parseMetaFile content) |}
      else if endsWith filename (js ".land") then
        {| loaded_models := loaded_models loaded ++ [parseLandFile content];
           loaded_textures := loaded_textures loaded;
           loaded_materials := loaded_materials loaded;
           loaded_animations := loaded_animations loaded;
           loaded_metadata := loaded_metadata loaded |}
      else if endsWith filename (js ".editor") then
        {| loaded_models := loaded_models loaded;
           loaded_textures := loaded_textures loaded;
           loaded_materials := loaded_materials loaded ++ [parseEditorFile content];
           loaded_animations := loaded_animations loaded;
           loaded_metadata := loaded_metadata loaded |}
      else loaded
  end.

(** [parseAssets], on what [Object.entries(assets)] lists. *)
Definition parseAssets (loaded : LoadedAssets JsonValue)
    (assets : list (jsstring * ZipAsset)) : LoadedAssets JsonValue :=
  foldl parseAsset loaded assets.

(** [loadLPK], from the buffer on; [loaded] is [this.loadedAssets] when the
    call starts. *)
Definition loadLPK (JSZip : JSZipLibrary) (loaded : LoadedAssets JsonValue)
    (lpkFile : buffer) (password : option jsstring)
  : Completion (LoadedAssets JsonValue) :=
  let arrayBuffer := lpkFile in
  lpkData ← parseLPKStructure arrayBuffer;
  let zipData := extractZipData arrayBuffer in
  assets ← loadZipContents JSZip zipData password;
  Return (parseAssets loaded (files_own assets)).
End SecondLoader.

(** ** The search for readable strings of the analysis script ([test-lpk.js]) *)

(** The loop over the first bytes of a payload; a position past the end of
    the buffer reads [undefined], which is not printable.  The state is
    [strings] and [current]; the script does not look at [current] after
    the loop. *)
Fixpoint readableLoop (bytes : list (option Z)) (current : jsstring)
    (strings : list jsstring) : list jsstring * jsstring :=
  match bytes with
  | [] => (strings, current)
  | byte :: rest =>
      if from_option isPrintable false byte
      then readableLoop rest (current ++ [default 0 byte]) strings
      else readableLoop rest [] (pushIfLong 4 strings current)
  end.

(** The bytes the loop reads: [zipData[file.offset + i]] for
    [i < Math.min(1000, file.compressedSize)]. *)
Definition payloadWindow (zipData : buffer) (file : FileEntry) : list (option Z) :=
  map (fun i => byteAt zipData (file_offset file + Z.of_nat i))
      (seq 0 (Z.to_nat (Z.min 1000 (file_compressedSize file)))).

Definition readableStrings (zipData : buffer) (file : FileEntry) : list jsstring :=
  fst (readableLoop (payloadWindow zipData file) [] []).

(** ** Notions for the properties of these functions *)

(** Names that differ at most in the case of the letters A to Z. *)
Definition sameUpToCase (name1 name2 : jsstring) : Prop :=
  toLowerCase name1 = toLowerCase name2.

(** The white space of ASCII. *)
Definition isAsciiSpace (b : byte) : Prop :=
  (9 <= byteZ b <= 13) \/ byteZ b = 32.

(** A file of the archive that is read by the loops: not a directory. *)
Definition isJsonFile (entry : jsstring * ZipObject) : Prop :=
  zip_dir (snd entry) = false /\ ext (fst entry) = js "json".

(** The bytes of a file that is read, and the element the loop of
    [parseZIPLPK] pushes for it. *)
Definition fileContent (file : ZipObject) : buffer :=
  match zip_async file with
  | Return content => content
  | Throw _ => []
  end.

Definition fileAsset (entry : jsstring * ZipObject) : Asset :=
  {| asset_filename := fst entry; asset_data := fileContent (snd entry);
     asset_type := ext (fst entry) |}.

(** A file of the archive that is a directory or can be read. *)
Definition isReadable (entry : jsstring * ZipObject) : Prop :=
  zip_dir (snd entry) = false -> exists content, zip_async (snd entry) = Return content.

Definition isModelFile (entry : jsstring * ZipObject) : Prop :=
  zip_dir (snd entry) = false /\ includes MODEL_EXTENSIONS (ext (fst entry)) = true.

Definition isTextureFile (entry : jsstring * ZipObject) : Prop :=
  zip_dir (snd entry) = false /\ includes TEXTURE_EXTENSIONS (ext (fst entry)) = true.

(** An archive with a manifest and a texture. *)
Definition archiveWithManifest : ZipFiles :=
  [(js "manifest.json", plainFile [x7b; x7d]); (js "t.png", plainFile [x01])].

(** An archive with a model, a texture, a directory and a text file. *)
Definition archiveWithoutJson : ZipFiles :=
  [(js "m.glb", plainFile [x01; x02]);
   (js "dir/", {| zip_dir := true; zip_async := Return [];
                  zip_string := Return [] |});
   (js "t.PNG", plainFile [x03]);
   (js "readme.txt", plainFile [x04])].

(** Reading a string of hex digits back, two digits for a byte. *)
Definition hexValue (digit : Z) : Z :=
  if digit <? 58 then digit - 48 else digit - 87.

Fixpoint unhex (digits : jsstring) : list Z :=
  match digits with
  | high :: low :: rest => (16 * hexValue high + hexValue low) :: unhex rest
  | _ => []
  end.

(** The bytes of the files of an archive that are not directories, can be
    read, and whose name ends with [suffix], in order. *)
Definition readFilesWith (suffix : jsstring) (files : ZipFiles) : list buffer :=
  omap (fun entry =>
          if zip_dir (snd entry) then None
          else match zip_async (snd entry) with
               | Return content =>
                   if endsWith (fst entry) suffix then Some content else None
               | Throw _ => None
               end) files.

(** An archive like the one of the analysed LPK file: a terrain, an editor
    file and a file that cannot be read. *)
Definition lpkArchive : ZipFiles :=
  [(js "0_0.land", plainFile [x01; x02; x03]);
   (js "experience.editor", plainFile [x04]);
   (js "experience.meta",
    {| zip_dir := false; zip_async := Throw (Error "Encrypted zip");
       zip_string := Throw (Error "Encrypted zip") |})].

(** An archive that holds a file named [__proto__] between a terrain and
    an editor file. *)
Definition protoArchive : ZipFiles :=
  [(js "a.land", plainFile [x01]);
   (js "__proto__", plainFile [x02]);
   (js "b.editor", plainFile [x03])].

(** A name that finds nothing on the prototype chain of [assets.data]. *)
Definition ordinaryName (name : jsstring) : Prop :=
  Object_prototype name = NotInherited /\ ArrayBuffer_prototype name = NotInherited.

(** A loader that has loaded nothing yet. *)
Definition nothingLoaded : LoadedAssets () :=
  {| loaded_models := []; loaded_textures := []; loaded_materials := [];
     loaded_animations := []; loaded_metadata := None |}.

(** The entry [loadZipContents] makes of a file. *)
Definition zipAssetOf (entry : jsstring * ZipObject) : jsstring * ZipAsset :=
  (fst entry,
   match zip_async (snd entry) with
   | Return content => ExtractedAsset (fst entry) content (byteLength content)
   | Throw error => EncryptedAsset (fst entry) error
   end).

(** The bytes of the entries that are extracted and whose name ends with
    [suffix], in order. *)
Definition extractedWith (suffix : jsstring) (assets : list (jsstring * ZipAsset))
  : list buffer :=
  omap (fun entry =>
          match snd entry with
          | ExtractedAsset _ content _ =>
              if endsWith (fst entry) suffix then Some content else None
          | EncryptedAsset _ _ => None
          end) assets.

(** The run that is open when the loop of the script ends. *)
Definition openRun (zipData : buffer) (file : FileEntry) : jsstring :=
  snd (readableLoop (payloadWindow zipData file) [] []).

(** A zero byte and the text LAND, and the entry whose payload is that text. *)
Definition textPayload : buffer := [x00; x4c; x41; x4e; x44].

Definition textEntry : FileEntry :=
  {| file_filename := js "t"; file_compressedSize := 4;
     file_uncompressedSize := 4; file_offset := 1 |}.

(** A string is made of printable characters and has [minLength] of them
    at least. *)
Definition isFoundString (minLength : Z) (s : jsstring) : Prop :=
  minLength <= Z.of_nat (length s) /\ Forall (fun c => isPrintable c = true) s.

(** * Properties *)

(** ** Buffers *)

Lemma byteZ_range (b : byte) : 0 <= byteZ b < 256.
Proof.
  unfold byteZ. pose proof (Byte.to_N_bounded b) as Hb.
  split; [apply N2Z.is_nonneg | lia].
Qed.

Lemma littleEndian_range (bs : buffer) :
  0 <= littleEndian bs < 256 ^ Z.of_nat (length bs).
Proof.
  induction bs as [|b bs IH]; simpl littleEndian; [simpl; lia|].
  pose proof (byteZ_range b) as Hb.
  rewrite length_cons, Nat2Z.inj_succ, Z.pow_succ_r by lia.
  lia.
Qed.

Lemma byteLength_nonneg (arrayBuffer : buffer) : 0 <= byteLength arrayBuffer.
Proof. unfold byteLength. lia. Qed.

(** For a range given by two positions in order, [slice] is the run of
    [end_ - begin] bytes found at [begin], cut at the end of the buffer. *)
Lemma slice_take_drop (arrayBuffer : buffer) (begin end_ : Z) :
  0 <= begin -> begin <= end_ ->
  slice arrayBuffer begin end_ =
  take (Z.to_nat (end_ - begin)) (drop (Z.to_nat begin) arrayBuffer).
Proof.
  intros Hb He. unfold slice, clampIndex, byteLength.
  destruct (begin <? 0) eqn:E1; [lia|].
  destruct (end_ <? 0) eqn:E2; [lia|].
  destruct (decide (begin <= Z.of_nat (length arrayBuffer))) as [Hin|Hout].
  - rewrite (Z.min_l begin) by lia.
    destruct (decide (end_ <= Z.of_nat (length arrayBuffer))) as [Hin'|Hout'].
    + rewrite (Z.min_l end_) by lia. f_equal. lia.
    + rewrite (Z.min_r end_) by lia.
      rewrite !take_ge; [done| |]; rewrite length_drop; lia.
  - rewrite !Z.min_r by lia.
    rewrite (drop_ge arrayBuffer (Z.to_nat begin)) by lia.
    rewrite take_nil. replace (Z.to_nat _) with 0%nat by lia. done.
Qed.

Lemma slice_length (arrayBuffer : buffer) (begin end_ : Z) :
  0 <= begin -> 0 <= end_ ->
  Z.of_nat (length (slice arrayBuffer begin end_)) =
  Z.max 0 (Z.min (byteLength arrayBuffer) end_ - Z.min (byteLength arrayBuffer) begin).
Proof.
  intros Hb He. unfold slice, clampIndex, byteLength.
  destruct (begin <? 0) eqn:E1; [lia|].
  destruct (end_ <? 0) eqn:E2; [lia|].
  rewrite length_take, length_drop. lia.
Qed.

Lemma sliceFrom_drop (arrayBuffer : buffer) (begin : Z) :
  0 <= begin -> sliceFrom arrayBuffer begin = drop (Z.to_nat begin) arrayBuffer.
Proof.
  intros Hb. unfold sliceFrom, slice, clampIndex.
  pose proof (byteLength_nonneg arrayBuffer) as Hlen. unfold byteLength in *.
  destruct (begin <? 0) eqn:E1; [lia|].
  destruct (Z.of_nat (length arrayBuffer) <? 0) eqn:E2; [lia|].
  rewrite Z.min_id.
  destruct (decide (begin <= Z.of_nat (length arrayBuffer))).
  - rewrite Z.min_l by lia. apply take_ge. rewrite length_drop. lia.
  - rewrite Z.min_r by lia. rewrite !drop_ge by lia. by rewrite take_nil.
Qed.

Lemma view_Return (arrayBuffer : buffer) (byteOffset length : Z) :
  0 <= byteOffset -> 0 <= length ->
  byteOffset + length <= byteLength arrayBuffer ->
  Uint8Array_view arrayBuffer byteOffset length =
  Return (take (Z.to_nat length) (drop (Z.to_nat byteOffset) arrayBuffer)).
Proof.
  intros H1 H2 H3. unfold Uint8Array_view.
  destruct (0 <=? byteOffset) eqn:E1; [|lia].
  destruct (0 <=? length) eqn:E2; [|lia].
  destruct (byteOffset + length <=? byteLength arrayBuffer) eqn:E3; [done|lia].
Qed.

Lemma view_inv (arrayBuffer : buffer) (byteOffset length : Z) (bs : buffer) :
  Uint8Array_view arrayBuffer byteOffset length = Return bs ->
  0 <= byteOffset /\ 0 <= length /\ byteOffset + length <= byteLength arrayBuffer
  /\ bs = take (Z.to_nat length) (drop (Z.to_nat byteOffset) arrayBuffer).
Proof.
  unfold Uint8Array_view.
  destruct (0 <=? byteOffset) eqn:E1; [|done].
  destruct (0 <=? length) eqn:E2; [|done].
  destruct (byteOffset + length <=? byteLength arrayBuffer) eqn:E3; [|done].
  intros [= <-]. repeat split; lia.
Qed.

Lemma getUint_Return (width : Z) (arrayBuffer : buffer) (offset : Z) :
  0 <= offset -> 0 <= width -> offset + width <= byteLength arrayBuffer ->
  getUint width arrayBuffer offset = Return (fieldAt width arrayBuffer offset).
Proof.
  intros. unfold getUint. rewrite view_Return by done. done.
Qed.

Lemma getUint_inv (width : Z) (arrayBuffer : buffer) (offset v : Z) :
  getUint width arrayBuffer offset = Return v ->
  0 <= offset /\ offset + width <= byteLength arrayBuffer
  /\ v = fieldAt width arrayBuffer offset /\ 0 <= v.
Proof.
  unfold getUint. destruct (Uint8Array_view _ _ _) as [bs|] eqn:E; [|done].
  apply view_inv in E as (? & ? & ? & ->). intros [= <-].
  repeat split; try done. apply littleEndian_range.
Qed.

Lemma fieldAt_nonneg (width : Z) (arrayBuffer : buffer) (offset : Z) :
  0 <= fieldAt width arrayBuffer offset.
Proof. apply littleEndian_range. Qed.

(** ** The format sniffer *)

Lemma trimStart_snoc (s : jsstring) (c : Z) :
  isWhiteSpace c = false -> exists t, trimStart (s ++ [c]) = t ++ [c].
Proof.
  intros Hc. induction s as [|d s IH]; simpl.
  - rewrite Hc. by exists [].
  - destruct (isWhiteSpace d); [done|]. by exists (d :: s).
Qed.

(** A string that starts with a character that is not white space keeps
    it under [trim]. *)
Lemma trim_head (c : Z) (s : jsstring) :
  isWhiteSpace c = false -> exists t, trim (c :: s) = c :: t.
Proof.
  intros Hc. unfold trim. simpl trimStart. rewrite Hc.
  change (rev (c :: s)) with (rev s ++ [c]).
  destruct (trimStart_snoc (rev s) c Hc) as [t ->].
  exists (rev t). by rewrite rev_app_distr.
Qed.

Lemma detectFormat_zip_iff (arrayBuffer : buffer) :
  detectFormat arrayBuffer = zip <-> hasPK arrayBuffer.
Proof.
  unfold detectFormat, hasPK. case_bool_decide as H.
  - tauto.
  - split; [|tauto]. by destruct (_ || _).
Qed.

(** A buffer whose first byte is B8 is neither a ZIP nor JSON for
    [detectFormat]: the decoder turns the byte into U+FFFD. *)
Lemma detectFormat_b8 (rest : buffer) : detectFormat (xb8 :: rest) = binary.
Proof.
  unfold detectFormat. case_bool_decide as H.
  - destruct H as [H _]. by vm_compute in H.
  - rewrite slice_take_drop by lia.
    change (take (Z.to_nat (10 - 0)) (drop (Z.to_nat 0) (xb8 :: rest)))
      with (xb8 :: take 9 rest).
    unfold TextDecoder_decode.
    change (utf8_run utf8_initial (xb8 :: take 9 rest))
      with (65533 :: utf8_run utf8_initial (take 9 rest)).
    cbv iota beta.
    change (concat (map utf16_units (65533 :: utf8_run utf8_initial (take 9 rest))))
      with (65533 :: concat (map utf16_units (utf8_run utf8_initial (take 9 rest)))).
    destruct (trim_head 65533 (concat (map utf16_units (utf8_run utf8_initial (take 9 rest)))))
      as [t ->]; done.
Qed.

(** C8.  For every input buffer, the empty one and malformed ones included,
    [detectFormat] returns (it is a total function: nothing in it throws)
    exactly one of the three tags [zip], [json] and [binary]: [zip] when
    the buffer starts with PK, else [json] when its first ten bytes,
    decoded and trimmed, start with an opening brace or bracket, else
    [binary], which is the fallback when no signature matches; the empty
    buffer is tagged [binary]. *)
Theorem detectFormat_closed_set (arrayBuffer : buffer) :
  ((detectFormat arrayBuffer = zip /\ hasPK arrayBuffer)
   \/ (detectFormat arrayBuffer = json
       /\ ~ hasPK arrayBuffer /\ looksLikeJSON arrayBuffer = true)
   \/ (detectFormat arrayBuffer = binary
       /\ ~ hasPK arrayBuffer /\ looksLikeJSON arrayBuffer = false))
  /\ detectFormat [] = binary.
Proof.
  split; [|done].
  unfold detectFormat, looksLikeJSON, hasPK. case_bool_decide as H.
  - by left.
  - right. destruct (_ || _); [left | right]; done.
Qed.

(** C3, as stated, fails: a buffer that begins with the LPK header and not
    with PK is not tagged [zip]. *)
Lemma detectFormat_header_not_zip :
  ~ hasPK lpkHeaderSample /\ detectFormat lpkHeaderSample <> zip.
Proof.
  split.
  - intros [H _]. by vm_compute in H.
  - by vm_compute.
Qed.

(** C3, amended.  [detectFormat] returns [zip] exactly when byte 0 is 0x50
    and byte 1 is 0x4B; it knows no other archive magic: every buffer that
    begins with the LPK header bytes B8 FB 46 7E is tagged [binary]. *)
Theorem detectFormat_zip_only_PK (arrayBuffer rest : buffer) :
  (detectFormat arrayBuffer = zip <-> hasPK arrayBuffer)
  /\ detectFormat (xb8 :: xfb :: x46 :: x7e :: rest) = binary.
Proof.
  split; [apply detectFormat_zip_iff | apply detectFormat_b8].
Qed.

(** ** The binary table parser *)

(** Case analysis on the first call of a chain of calls that returned. *)
Tactic Notation "bind_inv" ident(x) ident(E) :=
  lazymatch goal with
  | |- mbind _ ?c = Return _ -> _ =>
      destruct c as [x|] eqn:E; cbn [mbind Completion_bind]; [|intros [=]]
  end.

Lemma isOther_alt (row : AssetRow) :
  isOther row = negb (isModel row) && negb (isTexture row).
Proof.
  unfold isOther, isTexture. destruct (isModel row); [done|].
  by destruct (includes TEXTURE_EXTENSIONS _).
Qed.

Lemma extractAsset_cases (arrayBuffer : buffer) (result : Assets) (row : AssetRow) :
  extractAsset arrayBuffer result row =
  if isModel row then Return (pushModel result (rowAsset arrayBuffer row))
  else if isTexture row then Return (pushTexture result (rowAsset arrayBuffer row))
  else
    object ← Object_set (default emptyObject (assets_data result)) (row_name row)
               (rowData arrayBuffer row);
    Return {| assets_models := assets_models result;
              assets_textures := assets_textures result;
              assets_data := Some object |}.
Proof.
  unfold extractAsset, isTexture, isModel.
  destruct (includes MODEL_EXTENSIONS _); [done|].
  by destruct (includes TEXTURE_EXTENSIONS _).
Qed.

(** *** Assignments to [assets.data] *)

Lemma ownData_default (result : Assets) :
  data_own (default emptyObject (assets_data result)) = ownData result
  /\ data_proto (default emptyObject (assets_data result)) = dataPrototype result.
Proof. unfold ownData, dataPrototype. by destruct (assets_data result). Qed.

(** The setter of [__proto__] is found whatever the prototype is. *)
Lemma Object_set_proto (object : DataObject) (value : buffer) :
  data_own object !! js "__proto__" = None ->
  Object_set object (js "__proto__") value =
  Return {| data_own := data_own object; data_proto := Some value |}.
Proof.
  intros Hown. unfold Object_set, inherited. rewrite Hown.
  assert (ArrayBuffer_prototype (js "__proto__") = NotInherited) as -> by (by vm_compute).
  assert (Object_prototype (js "__proto__") = ProtoAccessor) as -> by (by vm_compute).
  by destruct (data_proto object).
Qed.

(** Under [Object.prototype] every other name is created or written. *)
Lemma Object_set_ordinary (object : DataObject) (name : jsstring) (value : buffer) :
  name ≠ js "__proto__" -> data_proto object = None ->
  Object_set object name value =
  Return {| data_own := <[name := value]> (data_own object); data_proto := None |}.
Proof.
  intros Hname Hproto. unfold Object_set, inherited, Object_prototype.
  rewrite Hproto, bool_decide_false by done.
  destruct (data_own object !! name); [done|].
  by destruct (includes OBJECT_PROTOTYPE_METHODS name).
Qed.

(** An assignment that returns, under another name than [__proto__], has
    created or written the property. *)
Lemma Object_set_inv (object object' : DataObject) (name : jsstring) (value : buffer) :
  Object_set object name value = Return object' ->
  name ≠ js "__proto__" ->
  object' = {| data_own := <[name := value]> (data_own object);
               data_proto := data_proto object |}.
Proof.
  intros Hset Hname. unfold Object_set in Hset.
  destruct (data_own object !! name); [by injection Hset|].
  destruct (inherited object name) eqn:Ei.
  - by injection Hset.
  - done.
  - exfalso. unfold inherited, ArrayBuffer_prototype, Object_prototype in Ei.
    rewrite bool_decide_false in Ei by done.
    destruct (data_proto object);
      repeat (destruct (includes _ name); try done).
  - by injection Hset.
Qed.

(** *** The extraction loop *)

Lemma lastWriter_cons_other (row : AssetRow) (rows : list AssetRow) :
  isOther row = true ->
  lastWriter (row :: rows) (row_name row)
  = Some (default row (lastWriter rows (row_name row))).
Proof.
  intros Eo. unfold lastWriter. rewrite filter_cons_True by done.
  rewrite last_cons. by destruct (last _).
Qed.

Lemma lastWriter_cons_skip (row : AssetRow) (rows : list AssetRow) (name : jsstring) :
  ~ (isOther row = true /\ row_name row = name) ->
  lastWriter (row :: rows) name = lastWriter rows name.
Proof. intros Hno. unfold lastWriter. by rewrite filter_cons_False. Qed.

(** The last writer of a name is a row of the table with that name that
    takes the [data] branch. *)
Lemma lastWriter_elem (rows : list AssetRow) (name : jsstring) (row : AssetRow) :
  lastWriter rows name = Some row ->
  row ∈ rows /\ isOther row = true /\ row_name row = name.
Proof.
  unfold lastWriter. intros H. apply last_Some_elem_of in H.
  apply list_elem_of_filter in H. tauto.
Qed.

Lemma filter_none {A : Type} (P : A -> Prop) `{!forall x, Decision (P x)} (l : list A) :
  (forall x, x ∈ l -> ~ P x) -> filter P l = [].
Proof.
  induction l as [|x l IH]; intros Hnone; [done|].
  rewrite filter_cons_False by (apply Hnone, list_elem_of_here).
  apply IH. intros y Hy. apply Hnone. by apply list_elem_of_further.
Qed.

Lemma lastOfName_lastWriter (rows : list AssetRow) (row : AssetRow) :
  lastOfName rows row -> isOther row = true ->
  lastWriter rows (row_name row) = Some row.
Proof.
  intros (before & after & -> & Hafter) Eo. unfold lastWriter.
  rewrite filter_app, filter_cons_True by done.
  rewrite (filter_none _ after).
  - by rewrite last_snoc.
  - rewrite Forall_forall in Hafter. intros x Hx [_ Hname]. by apply (Hafter x).
Qed.

(** What one turn of the loop does to the lists and to [assets.data],
    when it returns. *)
Lemma extractAsset_lists (arrayBuffer : buffer) (result result' : Assets)
    (row : AssetRow) :
  extractAsset arrayBuffer result row = Return result' ->
  assets_models result'
  = assets_models result ++ (if isModel row then [rowAsset arrayBuffer row] else [])
  /\ assets_textures result'
     = assets_textures result ++ (if isTexture row then [rowAsset arrayBuffer row] else []).
Proof.
  rewrite extractAsset_cases. destruct (isModel row) eqn:Em.
  { intros [= <-]. unfold isTexture. rewrite Em. simpl. by rewrite app_nil_r. }
  destruct (isTexture row).
  { intros [= <-]. simpl. by rewrite app_nil_r. }
  bind_inv object Eobject. intros [= <-]. simpl. by rewrite !app_nil_r.
Qed.

Lemma extractAsset_data (arrayBuffer : buffer) (result result' : Assets)
    (row : AssetRow) :
  extractAsset arrayBuffer result row = Return result' ->
  ownData result !! js "__proto__" = None ->
  if isOther row then
    assets_data result' <> None
    /\ if bool_decide (row_name row = js "__proto__")
       then ownData result' = ownData result
            /\ dataPrototype result' = Some (rowData arrayBuffer row)
       else ownData result' = <[row_name row := rowData arrayBuffer row]> (ownData result)
            /\ dataPrototype result' = dataPrototype result
  else assets_data result' = assets_data result.
Proof.
  rewrite extractAsset_cases, isOther_alt.
  destruct (isModel row); [by intros [= <-]|].
  destruct (isTexture row); [by intros [= <-]|].
  destruct (ownData_default result) as [Hown Hproto].
  bind_inv object Eobject. intros [= <-] Hinv. simpl. split; [done|].
  unfold ownData, dataPrototype. cbn [assets_data].
  case_bool_decide as Hname.
  - rewrite Hname, Object_set_proto in Eobject by (by rewrite Hown).
    injection Eobject as <-. by rewrite Hown.
  - apply Object_set_inv in Eobject; [|done]. subst object.
    by rewrite Hown, Hproto.
Qed.

Lemma extractLoop_lists (arrayBuffer : buffer) (rows : list AssetRow)
    (result result' : Assets) :
  extractLoop arrayBuffer result rows = Return result' ->
  assets_models result'
  = assets_models result
    ++ (rowAsset arrayBuffer <$> filter (fun row => isModel row = true) rows)
  /\ assets_textures result'
     = assets_textures result
       ++ (rowAsset arrayBuffer <$> filter (fun row => isTexture row = true) rows).
Proof.
  revert result. induction rows as [|row rows IH]; intros result;
    cbn [extractLoop].
  - intros [= <-]. by rewrite !filter_nil, !app_nil_r.
  - bind_inv result1 E1. intros Hloop.
    apply extractAsset_lists in E1 as [Hm Ht].
    apply IH in Hloop as [-> ->]. rewrite Hm, Ht, !filter_cons, <- !app_assoc.
    split.
    + destruct (isModel row); by repeat case_decide.
    + destruct (isTexture row); by repeat case_decide.
Qed.

(** The state of [assets.data] after the loop, when the loop returns: the
    name [__proto__] is never an own property, every other name holds the
    bytes of the last row assigned under it, the prototype is the slice of
    the last row named [__proto__], and the object exists exactly when
    some row took the last branch. *)
Lemma extractLoop_data (arrayBuffer : buffer) (rows : list AssetRow)
    (result result' : Assets) :
  extractLoop arrayBuffer result rows = Return result' ->
  ownData result !! js "__proto__" = None ->
  ownData result' !! js "__proto__" = None
  /\ (forall name, name ≠ js "__proto__" ->
        ownData result' !! name
        = match lastWriter rows name with
          | Some row => Some (rowData arrayBuffer row)
          | None => ownData result !! name
          end)
  /\ dataPrototype result'
     = match lastWriter rows (js "__proto__") with
       | Some row => Some (rowData arrayBuffer row)
       | None => dataPrototype result
       end
  /\ (assets_data result' = None <->
      assets_data result = None /\ filter (fun row => isOther row = true) rows = []).
Proof.
  revert result. induction rows as [|row rows IH]; intros result;
    cbn [extractLoop].
  - intros [= <-] Hinv. unfold lastWriter. rewrite !filter_nil. cbn [last].
    split; [done|]. split; [done|]. split; [done|]. tauto.
  - bind_inv result1 E1. intros Hloop Hinv.
    pose proof (extractAsset_data _ _ _ _ E1 Hinv) as Hstep.
    destruct (isOther row) eqn:Eo.
    + destruct Hstep as [Hcreated Hcase].
      rewrite filter_cons_True by done.
      case_bool_decide as Hname; destruct Hcase as [Hown Hproto].
      * assert (ownData result1 !! js "__proto__" = None) as Hinv1
          by (by rewrite Hown).
        destruct (IH _ Hloop Hinv1) as (I1 & I2 & I3 & I4).
        split; [done|]. split; [|split].
        -- intros name Hn. rewrite I2 by done.
           rewrite lastWriter_cons_skip by (intros [_ ?]; congruence).
           by rewrite Hown.
        -- rewrite I3, <- Hname, lastWriter_cons_other by done.
           rewrite Hproto. by destruct (lastWriter rows (row_name row)).
        -- rewrite I4. split; [by intros [? _]|by intros [_ ?]].
      * assert (ownData result1 !! js "__proto__" = None) as Hinv1
          by (by rewrite Hown, lookup_insert_ne).
        destruct (IH _ Hloop Hinv1) as (I1 & I2 & I3 & I4).
        split; [done|]. split; [|split].
        -- intros name Hn. rewrite I2 by done.
           destruct (decide (row_name row = name)) as [<-|Hne].
           ++ rewrite lastWriter_cons_other by done.
              destruct (lastWriter rows (row_name row)); [done|].
              by rewrite Hown, lookup_insert_eq.
           ++ rewrite lastWriter_cons_skip by (by intros [_ ?]).
              destruct (lastWriter rows name); [done|].
              by rewrite Hown, lookup_insert_ne.
        -- rewrite I3, lastWriter_cons_skip by (by intros [_ ?]).
           by rewrite Hproto.
        -- rewrite I4. split; [by intros [? _]|by intros [_ ?]].
    + assert (ownData result1 = ownData result
              /\ dataPrototype result1 = dataPrototype result) as [Hown Hproto].
      { unfold ownData, dataPrototype. by rewrite Hstep. }
      assert (ownData result1 !! js "__proto__" = None) as Hinv1
        by (by rewrite Hown).
      destruct (IH _ Hloop Hinv1) as (I1 & I2 & I3 & I4).
      rewrite filter_cons_False by congruence.
      split; [done|]. split; [|split].
      * intros name Hn. rewrite I2 by done.
        rewrite lastWriter_cons_skip by (intros [? _]; congruence).
        by rewrite Hown.
      * rewrite I3, lastWriter_cons_skip by (intros [? _]; congruence).
        by rewrite Hproto.
      * by rewrite I4, Hstep.
Qed.

(** No row of the table is named [__proto__]: the loop returns. *)
Lemma extractLoop_plain_returns (arrayBuffer : buffer) (rows : list AssetRow)
    (result : Assets) :
  plainRows rows -> dataPrototype result = None ->
  exists result', extractLoop arrayBuffer result rows = Return result'.
Proof.
  intros Hplain. revert result.
  induction Hplain as [|row rows Hrow Hrows IH]; intros result Hproto;
    cbn [extractLoop]; [by eexists|].
  rewrite extractAsset_cases.
  destruct (isModel row); [by apply IH|].
  destruct (isTexture row); [by apply IH|].
  destruct (ownData_default result) as [_ Hdefault].
  rewrite Object_set_ordinary by (by rewrite ?Hdefault).
  by apply IH.
Qed.

(** Every row whose entry is not lost to the name [__proto__] is recorded
    by a loop that returns. *)
Lemma extractAssets_recorded (arrayBuffer : buffer) (rows : list AssetRow)
    (result : Assets) (row : AssetRow) :
  extractAssets arrayBuffer rows = Return result ->
  row ∈ rows -> plainRow row ->
  recorded arrayBuffer rows result row.
Proof.
  intros Hloop Hin Hplain. unfold recorded, extractAssets in *.
  destruct (extractLoop_lists _ _ _ _ Hloop) as [Hm Ht].
  destruct (extractLoop_data _ _ _ _ Hloop (lookup_empty _)) as (_ & Hd & _).
  destruct (isModel row) eqn:Em.
  { left. split; [done|]. rewrite Hm. simpl.
    apply list_elem_of_fmap_2, list_elem_of_filter. done. }
  destruct (isTexture row) eqn:Et.
  { right; left. split; [done|]. rewrite Ht. simpl.
    apply list_elem_of_fmap_2, list_elem_of_filter. done. }
  right; right.
  assert (isOther row = true) as Eo by (by rewrite isOther_alt, Em, Et).
  split; [done|]. rewrite Hd by done.
  destruct (lastWriter rows (row_name row)) as [row'|] eqn:El; [by exists row'|].
  unfold lastWriter in El. apply last_None in El.
  exfalso. by apply (filter_nil_not_elem_of _ _ row El).
Qed.

Lemma entryKept_of_recorded (arrayBuffer : buffer) (rows : list AssetRow)
    (result : Assets) (row : AssetRow) :
  recorded arrayBuffer rows result row ->
  (isOther row = true -> lastOfName rows row) ->
  entryKept arrayBuffer result row.
Proof.
  intros [Hm|[Ht|(Ho & row' & Hlast & Hdata)]] Hlastof.
  - by left.
  - by right; left.
  - right; right. split; [done|].
    rewrite (lastOfName_lastWriter rows row) in Hlast by auto.
    by injection Hlast as <-.
Qed.

(** *** The parser and the table it reads *)

(** What the parser returns is decided by the table it reads. *)
Lemma parseFromVersion_table_of_result (arrayBuffer : buffer) (offset : Z)
    (result : BinaryResult) :
  parseFromVersion arrayBuffer offset = Return result ->
  exists rows,
    (version ← getUint32 arrayBuffer offset;
     assetCount ← getUint32 arrayBuffer (offset + 4);
     readAssetTable (Z.to_nat assetCount) arrayBuffer (offset + 4 + 4) []) = Return rows
    /\ extractAssets arrayBuffer rows = Return (assets result).
Proof.
  unfold parseFromVersion. bind_inv v Ev. bind_inv n En. bind_inv rows Er.
  bind_inv extracted Ee. intros [= <-]. by exists rows.
Qed.

Lemma parseBinaryLPK_table_of_result (arrayBuffer : buffer) (result : BinaryResult) :
  snd (parseBinaryLPK arrayBuffer) = Return result ->
  exists rows,
    assetTable arrayBuffer = Return rows
    /\ extractAssets arrayBuffer rows = Return (assets result).
Proof.
  unfold assetTable, parseBinaryLPK.
  destruct (Uint8Array_view arrayBuffer 0 4) as [magicBytes|]; [|by cbn].
  cbn [mbind Completion_bind]. change (0 + 4) with 4.
  case_bool_decide as Hm; cbn [snd]; apply parseFromVersion_table_of_result.
Qed.

Lemma parseFromVersion_of_table (arrayBuffer : buffer) (offset : Z)
    (rows : list AssetRow) :
  (version ← getUint32 arrayBuffer offset;
   assetCount ← getUint32 arrayBuffer (offset + 4);
   readAssetTable (Z.to_nat assetCount) arrayBuffer (offset + 4 + 4) []) = Return rows ->
  exists version,
    parseFromVersion arrayBuffer offset =
    (extracted ← extractAssets arrayBuffer rows;
     Return {| format := binary; version := version; assets := extracted |}).
Proof.
  unfold parseFromVersion.
  destruct (getUint32 arrayBuffer offset) as [version|]; [|by cbn].
  cbn [mbind Completion_bind].
  destruct (getUint32 arrayBuffer (offset + 4)) as [assetCount|]; [|by cbn].
  cbn [mbind Completion_bind].
  intros ->. cbn [mbind Completion_bind]. by exists version.
Qed.

Lemma parseBinaryLPK_of_table (arrayBuffer : buffer) (rows : list AssetRow) :
  assetTable arrayBuffer = Return rows ->
  exists warnings version,
    parseBinaryLPK arrayBuffer =
    (warnings,
     extracted ← extractAssets arrayBuffer rows;
     Return {| format := binary; version := version; assets := extracted |}).
Proof.
  unfold assetTable, parseBinaryLPK.
  destruct (Uint8Array_view arrayBuffer 0 4) as [magicBytes|] eqn:Ev; [|by cbn].
  cbn [mbind Completion_bind]. case_bool_decide as Hm; intros Htable.
  - destruct (parseFromVersion_of_table arrayBuffer 0 rows Htable) as (v & ->).
    by eexists _, _.
  - destruct (parseFromVersion_of_table arrayBuffer 4 rows Htable) as (v & Hv).
    change (0 + 4) with 4. rewrite Hv. by eexists _, _.
Qed.

(** A table that is read and has no row named [__proto__] gives a manifest. *)
Lemma parseBinaryLPK_plain (arrayBuffer : buffer) (rows : list AssetRow) :
  assetTable arrayBuffer = Return rows -> plainRows rows ->
  exists warnings result,
    parseBinaryLPK arrayBuffer = (warnings, Return result)
    /\ format result = binary
    /\ extractAssets arrayBuffer rows = Return (assets result).
Proof.
  intros Htable Hplain.
  destruct (parseBinaryLPK_of_table _ _ Htable) as (warnings & version & ->).
  destruct (extractLoop_plain_returns arrayBuffer rows noAssets Hplain eq_refl)
    as [extracted Hloop].
  unfold extractAssets. rewrite Hloop. cbn [mbind Completion_bind].
  by eexists _, _.
Qed.

Lemma readAssetTable_nonneg (count : nat) (arrayBuffer : buffer) (offset : Z)
    (acc rows : list AssetRow) :
  readAssetTable count arrayBuffer offset acc = Return rows ->
  Forall rowNonneg acc -> Forall rowNonneg rows.
Proof.
  revert offset acc. induction count as [|count IH]; intros offset acc;
    cbn [readAssetTable].
  - by intros [= <-].
  - bind_inv nameLength En. bind_inv nameBytes Eb. bind_inv type Et.
    bind_inv sz Es. bind_inv dataOff Ed.
    intros Hread Hacc. apply (IH _ _ Hread).
    apply Forall_app. split; [done|]. constructor; [|done].
    apply getUint_inv in Es as (_ & _ & _ & ?).
    apply getUint_inv in Ed as (_ & _ & _ & ?). by split.
Qed.

Lemma assetTable_nonneg (arrayBuffer : buffer) (rows : list AssetRow) :
  assetTable arrayBuffer = Return rows -> Forall rowNonneg rows.
Proof.
  unfold assetTable. bind_inv magicBytes Em. bind_inv version Ev.
  bind_inv assetCount Ec.
  intros H. by apply (readAssetTable_nonneg _ _ _ _ _ H).
Qed.

(** In bounds, the slice of a row is the exact run of bytes at its offset. *)
Lemma rowData_in_bounds (arrayBuffer : buffer) (row : AssetRow) :
  rowNonneg row ->
  row_dataOffset row + row_size row <= byteLength arrayBuffer ->
  rowData arrayBuffer row = bytesAt arrayBuffer (row_dataOffset row) (row_size row)
  /\ Z.of_nat (length (rowData arrayBuffer row)) = row_size row.
Proof.
  intros [Hs Ho] Hin. unfold rowData, bytesAt.
  rewrite slice_take_drop by lia.
  replace (row_dataOffset row + row_size row - row_dataOffset row)
    with (row_size row) by lia.
  split; [done|]. rewrite length_take, length_drop.
  unfold byteLength in Hin. lia.
Qed.

(** A table without a row named [__proto__]. *)
Ltac plain_rows :=
  unfold plainRows; repeat constructor;
  intros Hname; vm_compute in Hname; discriminate.

(** Each entry of the manifest of a table whose rows are in bounds is the
    exact run of bytes of a row with its name. *)
Lemma extractAssets_exact (arrayBuffer : buffer) (rows : list AssetRow)
    (result : Assets) :
  extractAssets arrayBuffer rows = Return result ->
  Forall rowNonneg rows ->
  Forall (fun row => row_dataOffset row + row_size row <= byteLength arrayBuffer) rows ->
  exactEntries arrayBuffer rows result.
Proof.
  intros Hloop Hnn Hin. unfold extractAssets in Hloop.
  rewrite Forall_forall in Hin, Hnn.
  assert (forall row, row ∈ rows ->
            rowData arrayBuffer row =
              bytesAt arrayBuffer (row_dataOffset row) (row_size row)
            /\ Z.of_nat (length (rowData arrayBuffer row)) = row_size row) as Hrow.
  { intros row Hrow. apply rowData_in_bounds; auto. }
  destruct (extractLoop_lists _ _ _ _ Hloop) as [Hm Ht].
  destruct (extractLoop_data _ _ _ _ Hloop (lookup_empty _)) as (Hproto & Hd & _).
  split.
  - intros a Ha'. rewrite Hm, Ht in Ha'. simpl in Ha'.
    apply elem_of_app in Ha' as [Ha'|Ha'];
      apply list_elem_of_fmap in Ha' as (row & -> & Hf);
      apply list_elem_of_filter in Hf as [_ Hf];
      exists row; destruct (Hrow row Hf); by simpl.
  - intros name d Hdata.
    destruct (decide (name = js "__proto__")) as [->|Hname]; [congruence|].
    rewrite Hd in Hdata by done.
    destruct (lastWriter rows name) as [row|] eqn:El; [|done].
    apply lastWriter_elem in El as (Hrin & _ & Hrname).
    injection Hdata as <-. exists row. destruct (Hrow row Hrin). done.
Qed.

(** C1.  The table of [protoLPK] is read and its two rows, [__proto__] and
    [byteLength], are in bounds.  The first assignment to [assets.data]
    makes the slice of the row the prototype of the object; the second
    finds the getter [byteLength] of [ArrayBuffer.prototype], which has no
    setter, and throws a TypeError: no manifest is returned. *)
Theorem parseBinaryLPK_proto_rows_throw :
  assetTable protoLPK = Return protoRows
  /\ Forall (fun row => row_dataOffset row + row_size row <= byteLength protoLPK)
       protoRows
  /\ parseBinaryLPK protoLPK = ([], Throw TypeError).
Proof.
  split; [reflexivity|]. split; [|by vm_compute].
  repeat constructor; vm_compute; discriminate.
Qed.

(** When the table of a buffer is read, no row is named [__proto__] and
    every row has [dataOffset + size <= buffer length], [parseBinaryLPK]
    returns a manifest in which every entry (of [models], [textures] and
    [data]) holds exactly [buffer[dataOffset .. dataOffset + size)] of a
    row with its name: [size] bytes, taken at [dataOffset] counted from the
    start of the whole buffer; and every row is recorded in the manifest. *)
Theorem parseBinaryLPK_exact_bytes (arrayBuffer : buffer) (rows : list AssetRow) :
  assetTable arrayBuffer = Return rows ->
  plainRows rows ->
  Forall (fun row => row_dataOffset row + row_size row <= byteLength arrayBuffer) rows ->
  exists warnings result,
    parseBinaryLPK arrayBuffer = (warnings, Return result)
    /\ exactEntries arrayBuffer rows (assets result)
    /\ (forall row, row ∈ rows -> recorded arrayBuffer rows (assets result) row).
Proof.
  intros Htable Hplain Hin.
  destruct (parseBinaryLPK_plain _ _ Htable Hplain)
    as (warnings & result & Hp & _ & Ha).
  exists warnings, result. split; [done|].
  pose proof (assetTable_nonneg _ _ Htable) as Hnn.
  split; [by apply extractAssets_exact|].
  intros row Hrow. apply extractAssets_recorded; [done|done|].
  unfold plainRows in Hplain. rewrite Forall_forall in Hplain. by apply Hplain.
Qed.

(** The theorem at [sampleLPK], whose two rows are in bounds. *)
Lemma parseBinaryLPK_exact_bytes_witness :
  exists warnings result,
    parseBinaryLPK sampleLPK = (warnings, Return result)
    /\ exactEntries sampleLPK sampleRows (assets result)
    /\ (forall row, row ∈ sampleRows -> recorded sampleLPK sampleRows (assets result) row).
Proof.
  apply (parseBinaryLPK_exact_bytes sampleLPK sampleRows).
  - reflexivity.
  - plain_rows.
  - repeat constructor; vm_compute; discriminate.
Defined.

(** C10, as stated, fails: the first row of [duplicateLPK] declares 5 bytes
    at 43 in a buffer of 45 bytes, so its slice is clamped to the two bytes
    BB CC; the second row bears the same name, and the manifest that is
    returned holds the three bytes of the second row only: the clamped
    entry is not in it. *)
Lemma parseBinaryLPK_overwrites_clamped_entry :
  assetTable duplicateLPK = Return duplicateRows
  /\ byteLength duplicateLPK = 45
  /\ rowData duplicateLPK clampedRow = [xbb; xcc]
  /\ exists result,
       parseBinaryLPK duplicateLPK = ([], Return result)
       /\ assets_models (assets result) = []
       /\ assets_textures (assets result) = []
       /\ map_to_list (ownData (assets result)) = [(js "b", [xaa; xbb; xcc])].
Proof.
  split; [reflexivity|]. split; [reflexivity|]. split; [reflexivity|].
  eexists. split; [reflexivity|]. split; [reflexivity|]. split; [reflexivity|].
  by vm_compute.
Qed.

(** C10, amended.  When the table is read, no row is named [__proto__],
    and the byte range of a row reaches past the end of the buffer,
    [parseBinaryLPK] still returns a manifest; the manifest has no error
    marker: the entry of the row is made with the clamped slice, of length
    [max(0, min(len, dataOffset+size) - min(len, dataOffset))], which is
    less than the declared size; it is in the manifest, on [models] or
    [textures], or in [data] under its name provided no later row bears
    that name; and every row of the table is recorded, in [data] the last
    row of a name being the one kept. *)
Theorem parseBinaryLPK_clamps_out_of_range (arrayBuffer : buffer)
    (rows : list AssetRow) (row : AssetRow) :
  assetTable arrayBuffer = Return rows ->
  plainRows rows ->
  row ∈ rows ->
  (exists i, row_dataOffset row <= i < row_dataOffset row + row_size row
             /\ byteLength arrayBuffer <= i) ->
  exists warnings result,
    parseBinaryLPK arrayBuffer = (warnings, Return result)
    /\ Z.of_nat (length (rowData arrayBuffer row)) =
       Z.max 0 (Z.min (byteLength arrayBuffer) (row_dataOffset row + row_size row)
                - Z.min (byteLength arrayBuffer) (row_dataOffset row))
    /\ Z.of_nat (length (rowData arrayBuffer row)) < row_size row
    /\ ((isOther row = true -> lastOfName rows row) ->
        entryKept arrayBuffer (assets result) row)
    /\ (forall row', row' ∈ rows -> recorded arrayBuffer rows (assets result) row').
Proof.
  intros Htable Hplain Hrow (i & Hi & Hlen).
  destruct (parseBinaryLPK_plain _ _ Htable Hplain)
    as (warnings & result & Hp & _ & Ha).
  exists warnings, result. split; [done|].
  pose proof (assetTable_nonneg _ _ Htable) as Hnn.
  rewrite Forall_forall in Hnn. destruct (Hnn row Hrow) as [Hs Ho].
  unfold plainRows in Hplain. rewrite Forall_forall in Hplain.
  assert (Z.of_nat (length (rowData arrayBuffer row)) =
          Z.max 0 (Z.min (byteLength arrayBuffer) (row_dataOffset row + row_size row)
                   - Z.min (byteLength arrayBuffer) (row_dataOffset row))) as Hl.
  { unfold rowData. apply slice_length; lia. }
  split; [done|]. split; [lia|]. split.
  - apply (entryKept_of_recorded _ rows). apply extractAssets_recorded; auto.
  - intros row' Hrow'. apply extractAssets_recorded; auto.
Qed.

(** The theorem at [truncatedLPK] and its row [b]; position 51 is in the
    range of the row and past the end. *)
Lemma parseBinaryLPK_clamps_out_of_range_witness :
  exists warnings result,
    parseBinaryLPK truncatedLPK = (warnings, Return result)
    /\ Z.of_nat (length (rowData truncatedLPK truncatedRow)) =
       Z.max 0 (Z.min (byteLength truncatedLPK) (49 + 5)
                - Z.min (byteLength truncatedLPK) 49)
    /\ Z.of_nat (length (rowData truncatedLPK truncatedRow)) < 5
    /\ ((isOther truncatedRow = true -> lastOfName truncatedRows truncatedRow) ->
        entryKept truncatedLPK (assets result) truncatedRow)
    /\ (forall row', row' ∈ truncatedRows ->
          recorded truncatedLPK truncatedRows (assets result) row').
Proof.
  apply (parseBinaryLPK_clamps_out_of_range truncatedLPK truncatedRows truncatedRow).
  - reflexivity.
  - plain_rows.
  - apply list_elem_of_further, list_elem_of_here.
  - exists 51. vm_compute. repeat split; discriminate.
Defined.

(** C4, as stated, fails: row [b] of [truncatedLPK] declares 5 bytes at 49 in
    a buffer of 51 bytes; the specification makes it a marker, the parser
    stores the two bytes that are there under its name. *)
Lemma parseBinaryLPK_truncated_not_marked :
  assetTable truncatedLPK = Return truncatedRows
  /\ spec_extractEntry truncatedLPK truncatedRow = TruncatedEntry
  /\ exists result,
       parseBinaryLPK truncatedLPK = ([], Return result)
       /\ ownData (assets result) !! js "b" = Some [x02; x03]
       /\ Extracted [x02; x03] <> spec_extractEntry truncatedLPK truncatedRow.
Proof.
  split; [reflexivity|]. split; [reflexivity|].
  eexists. split; [reflexivity|]. split; [by vm_compute | discriminate].
Qed.

(** C4, amended.  When the table is read, no row is named [__proto__], and
    a row has [dataOffset + size] beyond the buffer length, [parseBinaryLPK]
    does not fail or mark that entry: it returns a manifest in which the
    row is recorded like any other, its entry holding the bytes from
    [dataOffset] to the end of the buffer (none when [dataOffset] is past
    the end); and every other row whose range is in bounds is recorded in
    the same manifest, its entry holding exactly its [size] bytes at
    [dataOffset].  Recorded means pushed on [models] or [textures], or
    assigned to [data] under the name of the row, where the last row of a
    name is the one kept: the entry of a row is in the manifest unless it
    goes to [data] and a later row bears its name. *)
Theorem parseBinaryLPK_no_truncation_marker (arrayBuffer : buffer)
    (rows : list AssetRow) (row : AssetRow) :
  assetTable arrayBuffer = Return rows ->
  plainRows rows ->
  row ∈ rows ->
  byteLength arrayBuffer < row_dataOffset row + row_size row ->
  exists warnings result,
    parseBinaryLPK arrayBuffer = (warnings, Return result)
    /\ rowData arrayBuffer row = drop (Z.to_nat (row_dataOffset row)) arrayBuffer
    /\ recorded arrayBuffer rows (assets result) row
    /\ ((isOther row = true -> lastOfName rows row) ->
        entryKept arrayBuffer (assets result) row)
    /\ (forall row', row' ∈ rows ->
          row_dataOffset row' + row_size row' <= byteLength arrayBuffer ->
          recorded arrayBuffer rows (assets result) row'
          /\ ((isOther row' = true -> lastOfName rows row') ->
              entryKept arrayBuffer (assets result) row')
          /\ rowData arrayBuffer row' =
             bytesAt arrayBuffer (row_dataOffset row') (row_size row')
          /\ Z.of_nat (length (rowData arrayBuffer row')) = row_size row').
Proof.
  intros Htable Hplain Hrow Hout.
  destruct (parseBinaryLPK_plain _ _ Htable Hplain)
    as (warnings & result & Hp & _ & Ha).
  exists warnings, result. split; [done|].
  pose proof (assetTable_nonneg _ _ Htable) as Hnn.
  rewrite Forall_forall in Hnn. destruct (Hnn row Hrow) as [Hs Ho].
  unfold plainRows in Hplain. rewrite Forall_forall in Hplain.
  assert (forall row', row' ∈ rows -> recorded arrayBuffer rows (assets result) row')
    as Hrecorded by (intros row' Hrow'; apply extractAssets_recorded; auto).
  split; [|split; [|split]].
  - unfold rowData. rewrite slice_take_drop by lia.
    apply take_ge. rewrite length_drop. unfold byteLength in Hout. lia.
  - by apply Hrecorded.
  - apply (entryKept_of_recorded _ rows). by apply Hrecorded.
  - intros row' Hrow' Hin. split; [by apply Hrecorded|]. split.
    + apply (entryKept_of_recorded _ rows). by apply Hrecorded.
    + apply rowData_in_bounds; auto.
Qed.

(** The theorem at [truncatedLPK] and its row [b]. *)
Lemma parseBinaryLPK_no_truncation_marker_witness :
  exists warnings result,
    parseBinaryLPK truncatedLPK = (warnings, Return result)
    /\ rowData truncatedLPK truncatedRow = drop (Z.to_nat 49) truncatedLPK
    /\ recorded truncatedLPK truncatedRows (assets result) truncatedRow
    /\ ((isOther truncatedRow = true -> lastOfName truncatedRows truncatedRow) ->
        entryKept truncatedLPK (assets result) truncatedRow)
    /\ (forall row', row' ∈ truncatedRows ->
          row_dataOffset row' + row_size row' <= byteLength truncatedLPK ->
          recorded truncatedLPK truncatedRows (assets result) row'
          /\ ((isOther row' = true -> lastOfName truncatedRows row') ->
              entryKept truncatedLPK (assets result) row')
          /\ rowData truncatedLPK row' =
             bytesAt truncatedLPK (row_dataOffset row') (row_size row')
          /\ Z.of_nat (length (rowData truncatedLPK row')) = row_size row').
Proof.
  apply (parseBinaryLPK_no_truncation_marker truncatedLPK truncatedRows truncatedRow).
  - reflexivity.
  - plain_rows.
  - apply list_elem_of_further, list_elem_of_here.
  - reflexivity.
Defined.

(** C9.  When the first four bytes of the buffer are not the magic
    ['LPK\0'], the parse is not aborted: the warning is written, and the
    parser goes on from offset 0 with the same code that follows a matching
    magic at offset 4; so the version is read at offset 0 and the entry
    count at offset 4, and when the table that starts at offset 8 is read,
    the call ends as the extraction loop over those rows ends, with that
    version in the manifest.  With a matching magic no warning is written
    and the code runs from offset 4. *)
Theorem parseBinaryLPK_magic_mismatch (arrayBuffer : buffer) :
  4 <= byteLength arrayBuffer ->
  String_fromCharCode (take 4 arrayBuffer) ≠ LPK_MAGIC ->
  fst (parseBinaryLPK arrayBuffer) = [MAGIC_WARNING]
  /\ snd (parseBinaryLPK arrayBuffer) = parseFromVersion arrayBuffer 0
  /\ (forall rows,
        8 <= byteLength arrayBuffer ->
        readAssetTable (Z.to_nat (fieldAt 4 arrayBuffer 4)) arrayBuffer 8 [] = Return rows ->
        snd (parseBinaryLPK arrayBuffer) =
        (extracted ← extractAssets arrayBuffer rows;
         Return {| format := binary; version := fieldAt 4 arrayBuffer 0;
                   assets := extracted |}))
  /\ (forall matching,
        String_fromCharCode (take 4 matching) = LPK_MAGIC ->
        parseBinaryLPK matching = ([], parseFromVersion matching 4)).
Proof.
  intros Hlen Hmagic.
  assert (parseBinaryLPK arrayBuffer = ([MAGIC_WARNING], parseFromVersion arrayBuffer 0))
    as Hparse.
  { unfold parseBinaryLPK. rewrite view_Return by lia.
    change (take (Z.to_nat 4) (drop (Z.to_nat 0) arrayBuffer)) with (take 4 arrayBuffer).
    by rewrite bool_decide_true. }
  rewrite Hparse. split; [done|]. split; [done|]. split.
  - intros rows Hlen8 Hrows. simpl. unfold parseFromVersion.
    unfold getUint32. rewrite !getUint_Return by lia.
    cbn [mbind Completion_bind]. change (0 + 4 + 4) with 8. change (0 + 4) with 4.
    by rewrite Hrows.
  - intros matching Hm. unfold parseBinaryLPK.
    destruct (decide (4 <= byteLength matching)) as [Hl|Hl].
    + rewrite view_Return by lia.
      change (take (Z.to_nat 4) (drop (Z.to_nat 0) matching)) with (take 4 matching).
      by rewrite bool_decide_false by (by intros ?).
    + exfalso. assert (length (take 4 matching) = 4%nat) as Hl4.
      { apply (f_equal length) in Hm. unfold String_fromCharCode in Hm.
        by rewrite length_map in Hm. }
      rewrite length_take in Hl4. unfold byteLength in Hl. lia.
Qed.

(** The theorem at [noMagicLPK], 25 bytes that start with 03 00 00 00. *)
Lemma parseBinaryLPK_magic_mismatch_witness :
  fst (parseBinaryLPK noMagicLPK) = [MAGIC_WARNING]
  /\ snd (parseBinaryLPK noMagicLPK) = parseFromVersion noMagicLPK 0
  /\ (forall rows,
        8 <= byteLength noMagicLPK ->
        readAssetTable (Z.to_nat (fieldAt 4 noMagicLPK 4)) noMagicLPK 8 [] = Return rows ->
        snd (parseBinaryLPK noMagicLPK) =
        (extracted ← extractAssets noMagicLPK rows;
         Return {| format := binary; version := fieldAt 4 noMagicLPK 0;
                   assets := extracted |}))
  /\ (forall matching,
        String_fromCharCode (take 4 matching) = LPK_MAGIC ->
        parseBinaryLPK matching = ([], parseFromVersion matching 4)).
Proof.
  apply (parseBinaryLPK_magic_mismatch noMagicLPK).
  - vm_compute. discriminate.
  - vm_compute. discriminate.
Defined.

(** The buffer without magic is parsed to the end: version 3 and the row
    [m] with its two bytes. *)
Example parseBinaryLPK_noMagic_returns :
  exists result,
    parseBinaryLPK noMagicLPK = ([MAGIC_WARNING], Return result)
    /\ version result = 3
    /\ ownData (assets result) !! js "m" = Some [x11; x22].
Proof. eexists. split; [reflexivity|]. split; [reflexivity | by vm_compute]. Qed.

(** ** Categories by extension *)






(** In the loop of [parseZIPLPK] a json file whose text parses ends the
    call with a TypeError. *)
Example parseZIPLPK_json_throws :
  categorizeFiles (fun _ => Return tt) noAssets [(js "a.json", plainFile [x7b; x7d])]
  = Throw TypeError.
Proof. reflexivity. Qed.


(** ** The local-file-header scan *)

Lemma span_ge_30 (zipData : buffer) (p : Z) : 30 <= span zipData p.
Proof.
  unfold span, filenameLengthAt, extraFieldLengthAt, compressedSizeAt.
  pose proof (fieldAt_nonneg 2 zipData (p + 26)).
  pose proof (fieldAt_nonneg 2 zipData (p + 28)).
  pose proof (fieldAt_nonneg 4 zipData (p + 18)). lia.
Qed.

(** Under the guard of the loop every read of the record is in bounds:
    the branch does not throw. *)
Lemma parseLocalFileHeader_guarded (zipData : buffer) (p : Z) :
  0 <= p -> p < byteLength zipData - 30 ->
  parseLocalFileHeader zipData p = Return (entryAt zipData p, p + span zipData p).
Proof.
  intros Hp Hguard. unfold parseLocalFileHeader, readUInt16LE, readUInt32LE.
  rewrite !getUint_Return by lia. cbn [mbind Completion_bind].
  pose proof (fieldAt_nonneg 2 zipData (p + 26)).
  rewrite slice_take_drop by lia.
  replace (p + 30 + fieldAt 2 zipData (p + 26) - (p + 30))
    with (fieldAt 2 zipData (p + 26)) by lia.
  f_equal. apply pair_equal_spec. split; [done|].
  unfold span, filenameLengthAt, extraFieldLengthAt, compressedSizeAt. lia.
Qed.

Lemma scanLoop_unfold (zipData : buffer) (fuel : nat) (offset : Z) (files : list FileEntry) :
  scanLoop fuel zipData offset files =
  if negb (offset <? byteLength zipData - 30) then Some (Return files)
  else
    match fuel with
    | O => None
    | S fuel' =>
        if signatureAt zipData offset then
          match parseLocalFileHeader zipData offset with
          | Throw e => Some (Throw e)
          | Return (entry, next) => scanLoop fuel' zipData next (files ++ [entry])
          end
        else scanLoop fuel' zipData (offset + 1) files
    end.
Proof. by destruct fuel. Qed.

Lemma headerOffsets_unfold (zipData : buffer) (fuel : nat) (offset : Z) :
  headerOffsets fuel zipData offset =
  if negb (offset <? byteLength zipData - 30) then []
  else
    match fuel with
    | O => []
    | S fuel' =>
        if signatureAt zipData offset then
          match parseLocalFileHeader zipData offset with
          | Throw e => []
          | Return (entry, next) => offset :: headerOffsets fuel' zipData next
          end
        else headerOffsets fuel' zipData (offset + 1)
    end.
Proof. by destruct fuel. Qed.

(** With enough fuel the loop returns, without throwing, the entries read
    at the positions where it finds a signature. *)
Lemma scanLoop_returns (zipData : buffer) (fuel : nat) (offset : Z) (files : list FileEntry) :
  0 <= offset ->
  byteLength zipData - 30 - offset <= Z.of_nat fuel ->
  scanLoop fuel zipData offset files =
  Some (Return (files ++ (entryAt zipData <$> headerOffsets fuel zipData offset))).
Proof.
  revert offset files. induction fuel as [|fuel IH]; intros offset files Hpos Hfuel;
    rewrite scanLoop_unfold, headerOffsets_unfold;
    destruct (offset <? byteLength zipData - 30) eqn:Hguard; simpl negb; cbv iota;
    try (by rewrite app_nil_r); [lia|].
  destruct (signatureAt zipData offset).
  - rewrite parseLocalFileHeader_guarded by lia.
    pose proof (span_ge_30 zipData offset).
    rewrite IH by lia. by rewrite fmap_cons, <- app_assoc.
  - by rewrite IH by lia.
Qed.

Lemma headerOffsets_bounds (zipData : buffer) (fuel : nat) (offset : Z) :
  0 <= offset ->
  Forall (fun p => offset <= p < byteLength zipData - 30
                   /\ signatureAt zipData p = true)
         (headerOffsets fuel zipData offset).
Proof.
  revert offset. induction fuel as [|fuel IH]; intros offset Hpos;
    rewrite headerOffsets_unfold;
    destruct (offset <? byteLength zipData - 30) eqn:Hguard; simpl negb; cbv iota;
    try by constructor.
  destruct (signatureAt zipData offset) eqn:Hsig.
  - rewrite parseLocalFileHeader_guarded by lia.
    pose proof (span_ge_30 zipData offset).
    constructor; [split; [lia|done]|].
    eapply Forall_impl; [apply (IH (offset + span zipData offset)); lia|].
    simpl. intros p [? ?]. split; [lia|done].
  - eapply Forall_impl; [apply (IH (offset + 1)); lia|].
    simpl. intros p [? ?]. split; [lia|done].
Qed.

(** Consumed bytes are not scanned again: a later position is at or past
    the end of every earlier entry. *)
Lemma headerOffsets_spaced (zipData : buffer) (fuel : nat) (offset p q : Z) :
  0 <= offset ->
  p ∈ headerOffsets fuel zipData offset ->
  q ∈ headerOffsets fuel zipData offset ->
  p < q -> p + span zipData p <= q.
Proof.
  revert offset. induction fuel as [|fuel IH]; intros offset Hpos;
    rewrite headerOffsets_unfold;
    destruct (offset <? byteLength zipData - 30) eqn:Hguard; simpl negb; cbv iota;
    try (by intros ?%elem_of_nil).
  destruct (signatureAt zipData offset) eqn:Hsig; [|apply IH; lia].
  rewrite parseLocalFileHeader_guarded by lia.
  pose proof (span_ge_30 zipData offset) as Hspan.
  pose proof (headerOffsets_bounds zipData fuel (offset + span zipData offset) ltac:(lia)) as Hb.
  rewrite Forall_forall in Hb.
  intros [->|Hp]%elem_of_cons [->|Hq]%elem_of_cons Hlt.
  - lia.
  - apply Hb in Hq. lia.
  - apply Hb in Hp. lia.
  - apply (IH (offset + span zipData offset)); [lia|done..].
Qed.

(** With enough fuel, a signature that stands before the last 30 bytes
    and inside no entry that was read is found. *)
Lemma headerOffsets_complete (zipData : buffer) (fuel : nat) (offset q : Z) :
  0 <= offset ->
  byteLength zipData - 30 - offset <= Z.of_nat fuel ->
  offset <= q < byteLength zipData - 30 ->
  signatureAt zipData q = true ->
  (forall p, p ∈ headerOffsets fuel zipData offset -> ~ (p < q < p + span zipData p)) ->
  q ∈ headerOffsets fuel zipData offset.
Proof.
  revert offset. induction fuel as [|fuel IH]; intros offset Hpos Hfuel Hq Hsigq;
    rewrite headerOffsets_unfold;
    destruct (offset <? byteLength zipData - 30) eqn:Hguard; simpl negb; cbv iota;
    try lia.
  destruct (signatureAt zipData offset) eqn:Hsig.
  - rewrite parseLocalFileHeader_guarded by lia.
    pose proof (span_ge_30 zipData offset) as Hspan. intros Hfree.
    destruct (decide (q = offset)) as [->|Hne]; [apply list_elem_of_here|].
    apply list_elem_of_further.
    pose proof (Hfree offset (list_elem_of_here _ _)) as Hfirst.
    apply IH; [lia..|done|].
    intros p Hp. apply Hfree. by apply list_elem_of_further.
  - intros Hfree. assert (q ≠ offset) by congruence.
    apply IH; [lia..|done|done].
Qed.

Lemma headerOffsets_NoDup (zipData : buffer) (fuel : nat) (offset : Z) :
  0 <= offset -> NoDup (headerOffsets fuel zipData offset).
Proof.
  revert offset. induction fuel as [|fuel IH]; intros offset Hpos;
    rewrite headerOffsets_unfold;
    destruct (offset <? byteLength zipData - 30) eqn:Hguard; simpl negb; cbv iota;
    try by constructor.
  destruct (signatureAt zipData offset) eqn:Hsig; [|apply IH; lia].
  rewrite parseLocalFileHeader_guarded by lia.
  pose proof (span_ge_30 zipData offset) as Hspan.
  constructor; [|apply IH; lia].
  intros Hin.
  pose proof (headerOffsets_bounds zipData fuel (offset + span zipData offset) ltac:(lia)) as Hb.
  rewrite Forall_forall in Hb. apply Hb in Hin. lia.
Qed.

(** The positions come in increasing order. *)
Lemma headerOffsets_sorted (zipData : buffer) (fuel : nat) (offset : Z) :
  0 <= offset -> StronglySorted Z.lt (headerOffsets fuel zipData offset).
Proof.
  revert offset. induction fuel as [|fuel IH]; intros offset Hpos;
    rewrite headerOffsets_unfold;
    destruct (offset <? byteLength zipData - 30) eqn:Hguard; simpl negb; cbv iota;
    try by constructor.
  destruct (signatureAt zipData offset) eqn:Hsig; [|apply IH; lia].
  rewrite parseLocalFileHeader_guarded by lia.
  pose proof (span_ge_30 zipData offset) as Hspan.
  constructor; [apply IH; lia|].
  eapply Forall_impl;
    [apply (headerOffsets_bounds zipData fuel (offset + span zipData offset)); lia|].
  simpl. intros p [? _]. lia.
Qed.

(** Every entry takes at least 30 bytes of what is left. *)
Lemma headerOffsets_count (zipData : buffer) (fuel : nat) (offset : Z) :
  0 <= offset ->
  30 * Z.of_nat (length (headerOffsets fuel zipData offset))
  <= Z.max 0 (byteLength zipData - offset).
Proof.
  revert offset. induction fuel as [|fuel IH]; intros offset Hpos;
    rewrite headerOffsets_unfold;
    destruct (offset <? byteLength zipData - 30) eqn:Hguard; simpl negb; cbv iota;
    try (simpl; lia).
  destruct (signatureAt zipData offset) eqn:Hsig.
  - rewrite parseLocalFileHeader_guarded by lia.
    pose proof (span_ge_30 zipData offset) as Hspan.
    pose proof (IH (offset + span zipData offset) ltac:(lia)).
    rewrite length_cons. lia.
  - pose proof (IH (offset + 1) ltac:(lia)). lia.
Qed.

Lemma elem_of_signatureOccurrences (zipData : buffer) (q : Z) :
  q ∈ signatureOccurrences zipData
  <-> 0 <= q < byteLength zipData /\ signatureAt zipData q = true.
Proof.
  unfold signatureOccurrences, byteLength.
  rewrite list_elem_of_filter, list_elem_of_fmap. split.
  - intros (Hsig & n & -> & Hn). apply elem_of_seq in Hn. split; [lia|done].
  - intros (Hq & Hsig). split; [done|]. exists (Z.to_nat q).
    split; [lia|]. apply elem_of_seq. lia.
Qed.

(** The loop over the whole of [zipData]: it returns, and what it returns
    are the entries at the positions where it finds a signature. *)
Lemma scanFiles_returns (zipData : buffer) :
  scanFiles zipData =
  Some (Return (entryAt zipData <$> headerOffsets (length zipData) zipData 0)).
Proof.
  unfold scanFiles. rewrite scanLoop_returns; [done|lia|]. unfold byteLength. lia.
Qed.

(** C2, as stated, fails: [truncatedBody] has 35 bytes, the signature at 0
    and a filename length of 100; the entry of the scan has the name
    [abcde], the five bytes that are left, not 100 bytes, and its payload
    is said to start at 130, past the end of the body, where there is not
    one of the 7 bytes declared. *)
Lemma scan_name_cut_at_end :
  byteLength truncatedBody = 35
  /\ signatureAt truncatedBody 0 = true
  /\ filenameLengthAt truncatedBody 0 = 100
  /\ scanFiles truncatedBody =
     Some (Return [{| file_filename := js "abcde"; file_compressedSize := 7;
                      file_uncompressedSize := 7; file_offset := 130 |}])
  /\ bytesAt truncatedBody 130 7 = [].
Proof. repeat split; reflexivity. Qed.

(** C2, amended.  The scan of any body returns, and returns one entry for
    each position at which it matches the signature 50 4B 03 04 (such a
    position is before the last 30 bytes); the entry read at position [p]
    has the compressed size that is the little-endian uint32 at [p+18],
    the uncompressed size at [p+22], and a filename decoded from the bytes
    that follow the 30-byte record: [filenameLength] of them (the
    little-endian uint16 at [p+26]) when the body holds that many, those up
    to the end of the body otherwise.  Of the payload the entry holds the
    offset only, right after the filename and the extra field (length at
    [p+28]), which may lie past the end of the body; no payload byte is
    read, and the scan goes on [compressedSize] bytes after that offset. *)
Theorem scan_entry_fields (zipData : buffer) :
  scanFiles zipData =
  Some (Return (entryAt zipData <$> headerOffsets (length zipData) zipData 0))
  /\ Forall
       (fun p =>
          0 <= p < byteLength zipData - 30
          /\ signatureAt zipData p = true
          /\ file_compressedSize (entryAt zipData p) = fieldAt 4 zipData (p + 18)
          /\ file_uncompressedSize (entryAt zipData p) = fieldAt 4 zipData (p + 22)
          /\ file_filename (entryAt zipData p) =
             Buffer_toString (bytesAt zipData (p + 30) (fieldAt 2 zipData (p + 26)))
          /\ Z.of_nat (length (bytesAt zipData (p + 30) (fieldAt 2 zipData (p + 26)))) =
             Z.min (fieldAt 2 zipData (p + 26)) (byteLength zipData - (p + 30))
          /\ file_offset (entryAt zipData p) =
             p + 30 + fieldAt 2 zipData (p + 26) + fieldAt 2 zipData (p + 28)
          /\ parseLocalFileHeader zipData p =
             Return (entryAt zipData p,
                     file_offset (entryAt zipData p)
                     + file_compressedSize (entryAt zipData p)))
       (headerOffsets (length zipData) zipData 0).
Proof.
  split; [apply scanFiles_returns|].
  eapply Forall_impl; [apply headerOffsets_bounds; lia|].
  simpl. intros p [Hp Hsig]. repeat split; try done; try lia.
  - unfold bytesAt. rewrite length_take, length_drop.
    pose proof (fieldAt_nonneg 2 zipData (p + 26)). unfold byteLength in *. lia.
  - rewrite parseLocalFileHeader_guarded by lia. do 2 f_equal.
    unfold span, payloadOffsetAt. lia.
Qed.

(** C5, as stated, fails: the body of [lpkHeader ++ storedZip] holds the
    signature twice, at 0 and, inside the payload of the first entry, at 31;
    the scan returns one entry. *)
Lemma scan_skips_signature_in_payload :
  signatureOccurrences (sliceFrom (lpkHeader ++ storedZip) 8) = [0; 31]
  /\ analyzeLPK (lpkHeader ++ storedZip) =
     Some (Return [{| file_filename := js "a"; file_compressedSize := 4;
                      file_uncompressedSize := 4; file_offset := 31 |}]).
Proof. split; reflexivity. Qed.

(** C5, amended.  After the first 8 bytes are skipped the scan returns, and
    returns exactly one entry for each occurrence of the signature
    50 4B 03 04 that stands before the last 30 bytes of the body and inside
    no entry already read (the positions of the entries are these
    occurrences, each of them once, in increasing order), which is at most
    the number of all occurrences;
    the cursor goes past each entry by
    [30 + filenameLength + extraFieldLength + compressedSize], so that the
    bytes of an entry are never scanned again. *)
Theorem scan_counts_unconsumed_signatures (lpkData : buffer) :
  exists files offsets,
    analyzeLPK lpkData = Some (Return files)
    /\ sliceFrom lpkData 8 = drop 8 lpkData
    /\ files = entryAt (drop 8 lpkData) <$> offsets
    /\ length files = length offsets
    /\ NoDup offsets
    /\ StronglySorted Z.lt offsets
    /\ (forall q, q ∈ offsets <->
          0 <= q < byteLength (drop 8 lpkData) - 30
          /\ signatureAt (drop 8 lpkData) q = true
          /\ forall p, p ∈ offsets -> ~ (p < q < p + span (drop 8 lpkData) p))
    /\ (forall p q, p ∈ offsets -> q ∈ offsets -> p < q ->
          p + span (drop 8 lpkData) p <= q)
    /\ (length files <= length (signatureOccurrences (drop 8 lpkData)))%nat.
Proof.
  assert (sliceFrom lpkData 8 = drop 8 lpkData) as Hbody
    by (by rewrite sliceFrom_drop by lia).
  unfold analyzeLPK. rewrite Hbody. set (zipData := drop 8 lpkData).
  exists (entryAt zipData <$> headerOffsets (length zipData) zipData 0),
         (headerOffsets (length zipData) zipData 0).
  pose proof (headerOffsets_bounds zipData (length zipData) 0 ltac:(lia)) as Hb.
  rewrite Forall_forall in Hb.
  split; [apply scanFiles_returns|]. split; [done|]. split; [done|].
  split; [apply length_fmap|].
  split; [apply headerOffsets_NoDup; lia|].
  split; [apply headerOffsets_sorted; lia|]. split; [|split].
  - intros q. split.
    + intros Hq. destruct (Hb q Hq) as [Hbq Hsig].
      split; [lia|]. split; [done|]. intros p Hp [Hlt Hin].
      pose proof (headerOffsets_spaced zipData _ 0 p q ltac:(lia) Hp Hq Hlt). lia.
    + intros (Hq & Hsig & Hfree).
      apply headerOffsets_complete; [lia| |lia|done|done].
      unfold byteLength. lia.
  - intros p q Hp Hq Hlt.
    by apply (headerOffsets_spaced zipData (length zipData) 0).
  - rewrite length_fmap. apply submseteq_length, NoDup_submseteq.
    + apply headerOffsets_NoDup. lia.
    + intros q Hq. apply elem_of_signatureOccurrences. apply Hb in Hq.
      split; [lia|tauto].
Qed.

(** C6, as stated, fails: for an 8-byte header followed by nothing, whose
    body does not begin with PK, the scan fails with nothing and returns
    the empty list of entries. *)
Lemma scan_empty_body_returns :
  ~ hasPK (sliceFrom lpkHeader 8)
  /\ analyzeLPK lpkHeader = Some (Return []).
Proof.
  split; [|reflexivity]. intros [H _]. by vm_compute in H.
Qed.

(** C6, amended.  When the bytes after the first 8 do not begin with PK,
    nothing fails: [extractZipData] hands over those bytes unchecked, and
    the scan returns a list of entries, those at the signatures it finds
    from position 1 on, each taking at least 30 bytes of the body; for a
    body that is empty the list is empty. *)
Theorem scan_without_signature_returns (lpkData : buffer) :
  ~ hasPK (sliceFrom lpkData 8) ->
  exists files offsets,
    analyzeLPK lpkData = Some (Return files)
    /\ extractZipData lpkData = drop 8 lpkData
    /\ files = entryAt (drop 8 lpkData) <$> offsets
    /\ Forall (fun p => 1 <= p < byteLength (drop 8 lpkData) - 30
                        /\ signatureAt (drop 8 lpkData) p = true) offsets
    /\ 30 * Z.of_nat (length files) <= byteLength (drop 8 lpkData).
Proof.
  assert (sliceFrom lpkData 8 = drop 8 lpkData) as Hbody
    by (by rewrite sliceFrom_drop by lia).
  unfold analyzeLPK, extractZipData. rewrite Hbody. set (zipData := drop 8 lpkData).
  intros HnoPK.
  exists (entryAt zipData <$> headerOffsets (length zipData) zipData 0),
         (headerOffsets (length zipData) zipData 0).
  split; [apply scanFiles_returns|]. split; [done|]. split; [done|]. split.
  - pose proof (headerOffsets_bounds zipData (length zipData) 0 ltac:(lia)) as Hb.
    eapply Forall_impl; [exact Hb|]. simpl. intros p [Hp Hsig].
    split; [|done]. destruct (decide (p = 0)) as [->|]; [|lia].
    exfalso. apply HnoPK. unfold signatureAt in Hsig. unfold hasPK.
    change (0 + 1) with 1 in Hsig.
    repeat (apply andb_true_iff in Hsig as [Hsig ?]).
    split; by eapply bool_decide_eq_true_1.
  - rewrite length_fmap.
    pose proof (headerOffsets_count zipData (length zipData) 0 ltac:(lia)) as Hc.
    pose proof (byteLength_nonneg zipData). lia.
Qed.

(** The theorem at [lpkHeader]: eight bytes, and an empty body. *)
Lemma scan_without_signature_returns_witness :
  exists files offsets,
    analyzeLPK lpkHeader = Some (Return files)
    /\ extractZipData lpkHeader = drop 8 lpkHeader
    /\ files = entryAt (drop 8 lpkHeader) <$> offsets
    /\ Forall (fun p => 1 <= p < byteLength (drop 8 lpkHeader) - 30
                        /\ signatureAt (drop 8 lpkHeader) p = true) offsets
    /\ 30 * Z.of_nat (length files) <= byteLength (drop 8 lpkHeader).
Proof.
  apply (scan_without_signature_returns lpkHeader).
  intros [H _]. vm_compute in H. discriminate.
Defined.


(** * Further properties of the loaders *)

(** ** Extensions *)

Lemma split_nonempty (sep : Z) (s : jsstring) : split sep s ≠ [].
Proof.
  destruct s as [|c s]; simpl; [done|].
  destruct (c =? sep); [done|]. by destruct (split sep s).
Qed.

Lemma split_without_separator (sep : Z) (s : jsstring) :
  sep ∉ s -> split sep s = [s].
Proof.
  induction s as [|c s IH]; intros Hs; simpl; [done|].
  apply not_elem_of_cons in Hs as [Hc Hs].
  destruct (c =? sep) eqn:E; [lia|]. by rewrite IH.
Qed.

Lemma split_app (sep : Z) (p s : jsstring) :
  split sep (p ++ sep :: s) = split sep p ++ split sep s.
Proof.
  induction p as [|c p IH]; simpl.
  - by rewrite Z.eqb_refl.
  - destruct (c =? sep); [by rewrite IH|]. rewrite IH.
    pose proof (split_nonempty sep p). by destruct (split sep p).
Qed.

Lemma pop_app (segs1 segs2 : list jsstring) :
  segs2 ≠ [] -> pop (segs1 ++ segs2) = pop segs2.
Proof.
  intros Hne. unfold pop. induction segs1 as [|seg segs1 IH]; [done|].
  simpl. destruct (segs1 ++ segs2) eqn:E; [|done].
  by apply app_eq_nil in E as [_ ?].
Qed.

Lemma pop_map (f : jsstring -> jsstring) (segs : list jsstring) :
  f [] = [] -> pop (map f segs) = f (pop segs).
Proof.
  intros Hf. unfold pop. induction segs as [|seg segs IH]; simpl; [done|].
  destruct segs; [done|]. exact IH.
Qed.

Lemma toLowerCase_split (s : jsstring) :
  split 46 (toLowerCase s) = map toLowerCase (split 46 s).
Proof.
  induction s as [|c s IH]; [done|].
  change (toLowerCase (c :: s))
    with ((if (65 <=? c) && (c <=? 90) then c + 32 else c) :: toLowerCase s).
  cbn [split]. rewrite IH.
  destruct (c =? 46) eqn:E.
  - apply Z.eqb_eq in E as ->. done.
  - assert (((if (65 <=? c) && (c <=? 90) then c + 32 else c) =? 46) = false) as ->.
    { destruct ((65 <=? c) && (c <=? 90)) eqn:E'; lia. }
    pose proof (split_nonempty 46 s). by destruct (split 46 s).
Qed.

(** The extension is the lower-cased text after the last full stop of the
    name, and the lower-cased name itself when it has no full stop: a file
    named [OBJ] or [png] is classified like [x.obj] or [x.png]. *)
Theorem ext_after_last_stop (stem suffix name : jsstring) :
  46 ∉ suffix -> 46 ∉ name ->
  ext (stem ++ 46 :: suffix) = toLowerCase suffix
  /\ ext name = toLowerCase name.
Proof.
  intros Hs Hn. unfold ext. split.
  - rewrite split_app, pop_app by apply split_nonempty.
    by rewrite split_without_separator.
  - by rewrite split_without_separator.
Qed.

(** At [a.b.PNG] and at [OBJ]. *)
Lemma ext_after_last_stop_witness :
  ext (js "a.b" ++ 46 :: js "PNG") = toLowerCase (js "PNG")
  /\ ext (js "OBJ") = toLowerCase (js "OBJ").
Proof.
  apply (ext_after_last_stop (js "a.b") (js "PNG") (js "OBJ")).
  - vm_compute. intros H. repeat (apply elem_of_cons in H as [H|H]; [discriminate|]).
    by apply elem_of_nil in H.
  - vm_compute. intros H. repeat (apply elem_of_cons in H as [H|H]; [discriminate|]).
    by apply elem_of_nil in H.
Defined.

(** Names that differ only in the case of ASCII letters have the same
    extension, hence the same category in every parser. *)
Theorem ext_case_insensitive (name1 name2 : jsstring) :
  sameUpToCase name1 name2 ->
  ext name1 = ext name2 /\ categoryOf name1 = categoryOf name2.
Proof.
  unfold sameUpToCase, categoryOf, ext. intros Hsame.
  assert (toLowerCase (pop (split 46 name1)) = toLowerCase (pop (split 46 name2)))
    as Hext.
  { rewrite <- !(pop_map toLowerCase) by done.
    by rewrite <- !toLowerCase_split, Hsame. }
  by rewrite Hext.
Qed.

Lemma ext_case_insensitive_witness :
  ext (js "Model.GlTf") = ext (js "model.gltf")
  /\ categoryOf (js "Model.GlTf") = categoryOf (js "model.gltf").
Proof.
  apply (ext_case_insensitive (js "Model.GlTf") (js "model.gltf")).
  reflexivity.
Defined.

(** ** More on the format sniffer *)

Lemma byteAt_take (arrayBuffer : buffer) (n : nat) (i : Z) :
  i < Z.of_nat n -> byteAt (take n arrayBuffer) i = byteAt arrayBuffer i.
Proof.
  intros Hi. unfold byteAt. destruct (i <? 0) eqn:E; [done|].
  by rewrite lookup_take_lt by lia.
Qed.

Lemma slice_first_ten (arrayBuffer : buffer) :
  slice arrayBuffer 0 10 = take 10 arrayBuffer.
Proof. by rewrite slice_take_drop by lia. Qed.

(** [detectFormat] reads a bounded prefix: the tag of a buffer is the tag
    of its first ten bytes. *)
Theorem detectFormat_first_ten_bytes (arrayBuffer : buffer) :
  detectFormat arrayBuffer = detectFormat (take 10 arrayBuffer).
Proof.
  unfold detectFormat.
  rewrite !(byteAt_take arrayBuffer 10) by lia.
  rewrite !slice_first_ten. by rewrite take_take.
Qed.

(** Decoding a run of ASCII bytes gives the bytes, and leaves the decoder
    where it was. *)
Lemma utf8_run_ascii (bs rest : buffer) :
  Forall (fun b => byteZ b <= 127) bs ->
  utf8_run utf8_initial (bs ++ rest) = map byteZ bs ++ utf8_run utf8_initial rest.
Proof.
  induction 1 as [|b bs Hb _ IH]; [done|].
  cbn [app utf8_run bytes_needed utf8_initial]. cbn [Z.eqb].
  unfold utf8_lead. destruct (byteZ b <=? 127) eqn:E; [|lia].
  cbn [app map]. by rewrite <- IH.
Qed.

Lemma utf16_units_small (cps : list Z) :
  Forall (fun cp => cp < 65536) cps -> concat (map utf16_units cps) = cps.
Proof.
  induction 1 as [|cp cps Hcp _ IH]; [done|].
  cbn [map concat]. unfold utf16_units at 1.
  destruct (cp <? 65536) eqn:E; [|lia]. by rewrite IH.
Qed.

Lemma TextDecoder_decode_no_mark (bs : buffer) (cp : Z) (cps : list Z) :
  utf8_run utf8_initial bs = cp :: cps -> cp ≠ 65279 ->
  TextDecoder_decode bs = concat (map utf16_units (cp :: cps)).
Proof.
  intros Hrun Hcp. unfold TextDecoder_decode. rewrite Hrun.
  destruct cp as [|p|p]; try done.
  do 16 (destruct p as [p|p|]; try done).
Qed.

(** The text decoded from a buffer that starts with ASCII bytes starts with
    those bytes. *)
Lemma TextDecoder_decode_ascii (b : byte) (bs rest : buffer) :
  Forall (fun b => byteZ b <= 127) (b :: bs) ->
  TextDecoder_decode (b :: bs ++ rest) =
  map byteZ (b :: bs) ++ concat (map utf16_units (utf8_run utf8_initial rest)).
Proof.
  intros Hascii.
  assert (byteZ b <= 127) as Hb by (by inversion Hascii).
  rewrite (TextDecoder_decode_no_mark _ (byteZ b)
             (map byteZ bs ++ utf8_run utf8_initial rest)); [| |lia].
  - change (byteZ b :: map byteZ bs ++ utf8_run utf8_initial rest)
      with (map byteZ (b :: bs) ++ utf8_run utf8_initial rest).
    rewrite map_app, concat_app, utf16_units_small; [done|].
    apply Forall_map. eapply Forall_impl; [exact Hascii|]. simpl. lia.
  - change (b :: bs ++ rest) with ((b :: bs) ++ rest).
    by rewrite utf8_run_ascii.
Qed.

Lemma trimStart_spaces (spaces s : jsstring) :
  Forall (fun c => isWhiteSpace c = true) spaces ->
  trimStart (spaces ++ s) = trimStart s.
Proof.
  induction 1 as [|c spaces Hc _ IH]; [done|]. simpl. by rewrite Hc.
Qed.

Lemma trim_spaces (spaces s : jsstring) :
  Forall (fun c => isWhiteSpace c = true) spaces ->
  trim (spaces ++ s) = trim s.
Proof.
  intros Hs. unfold trim. rewrite (trimStart_spaces spaces s Hs). done.
Qed.

Lemma isAsciiSpace_spec (b : byte) :
  isAsciiSpace b -> byteZ b <= 127 /\ isWhiteSpace (byteZ b) = true /\ byteZ b ≠ 80.
Proof.
  unfold isAsciiSpace, isWhiteSpace. intros [H|H].
  - split; [lia|]. split; [|lia].
    destruct (9 <=? byteZ b) eqn:E1; [|lia].
    destruct (byteZ b <=? 13) eqn:E2; [done|lia].
  - rewrite H. done.
Qed.

(** A buffer that starts with an ASCII character which is not white space,
    nor P, nor an opening brace or bracket, is tagged [binary]. *)
Lemma detectFormat_ascii_head (b : byte) (rest : buffer) :
  byteZ b <= 127 -> isWhiteSpace (byteZ b) = false ->
  byteZ b ≠ 80 -> byteZ b ≠ 123 -> byteZ b ≠ 91 ->
  detectFormat (b :: rest) = binary.
Proof.
  intros Hascii Hws HP Hbrace Hbracket. unfold detectFormat.
  rewrite bool_decide_false.
  2:{ intros [H _]. unfold byteAt in H. simpl in H. congruence. }
  rewrite slice_first_ten. change (take 10 (b :: rest)) with (b :: [] ++ take 9 rest).
  rewrite TextDecoder_decode_ascii by (by repeat constructor).
  cbn [map app].
  destruct (trim_head (byteZ b)
              (concat (map utf16_units (utf8_run utf8_initial (take 9 rest)))) Hws)
    as [t ->].
  cbn [startsWith].
  destruct (byteZ b =? 123) eqn:E1; [lia|].
  destruct (byteZ b =? 91) eqn:E2; [lia|]. done.
Qed.

(** JSON is recognised behind ASCII white space only while the opening
    brace or bracket is among the first ten bytes: behind at most nine
    white-space bytes the buffer is tagged [json], behind ten or more it is
    tagged [binary], whatever follows. *)
Theorem detectFormat_white_space_window (spaces rest : buffer) :
  Forall isAsciiSpace spaces ->
  ((length spaces <= 9)%nat
   /\ detectFormat (spaces ++ x7b :: rest) = json
   /\ detectFormat (spaces ++ x5b :: rest) = json)
  \/ ((10 <= length spaces)%nat /\ detectFormat (spaces ++ rest) = binary).
Proof.
  intros Hspaces.
  assert (Forall (fun b => byteZ b <= 127) spaces) as Hascii.
  { eapply Forall_impl; [exact Hspaces|]. intros b Hb.
    by apply isAsciiSpace_spec in Hb as [? _]. }
  assert (Forall (fun c => isWhiteSpace c = true) (map byteZ spaces)) as Hws.
  { apply Forall_map. eapply Forall_impl; [exact Hspaces|]. intros b Hb.
    by apply isAsciiSpace_spec in Hb as (_ & ? & _). }
  assert (forall l, ~ hasPK (spaces ++ l) \/ spaces = []) as HnoPK.
  { intros l. destruct Hspaces as [|b spaces Hb _]; [by right|]. left.
    intros [H _]. unfold byteAt in H. simpl in H.
    apply isAsciiSpace_spec in Hb as (_ & _ & ?). congruence. }
  assert (forall opener : byte, byteZ opener <= 127 -> byteZ opener ≠ 80 ->
            isWhiteSpace (byteZ opener) = false ->
            (length spaces <= 9)%nat ->
            detectFormat (spaces ++ opener :: rest) =
            if (byteZ opener =? 123) || (byteZ opener =? 91) then json else binary)
    as Hopen.
  { intros opener Ho HoP Hows Hlen. unfold detectFormat.
    rewrite bool_decide_false.
    2:{ destruct (HnoPK (opener :: rest)) as [H| ->]; [done|].
        intros [H _]. unfold byteAt in H. simpl in H. congruence. }
    rewrite slice_first_ten, take_app.
    rewrite (take_ge spaces) by lia.
    replace (10 - length spaces)%nat with (S (9 - length spaces)) by lia.
    cbn [take].
    set (tail := take (9 - length spaces) rest).
    assert (exists b bs, spaces ++ [opener] = b :: bs
                         /\ Forall (fun b => byteZ b <= 127) (b :: bs))
      as (b & bs & Hshape & Hall).
    { destruct (spaces ++ [opener]) as [|b bs] eqn:E.
      - by apply app_eq_nil in E as [_ ?].
      - exists b, bs. split; [done|]. rewrite <- E.
        apply Forall_app. split; [done|]. by repeat constructor. }
    change (spaces ++ opener :: tail) with (spaces ++ [opener] ++ tail).
    rewrite app_assoc, Hshape.
    change ((b :: bs) ++ tail) with (b :: bs ++ tail).
    rewrite TextDecoder_decode_ascii by done.
    rewrite <- Hshape, map_app, <- app_assoc.
    rewrite trim_spaces by done. cbn [map app].
    destruct (trim_head (byteZ opener)
                (concat (map utf16_units (utf8_run utf8_initial tail))) Hows)
      as [t ->].
    done. }
  destruct (decide (length spaces <= 9)%nat) as [Hlen|Hlen]; [left|right].
  - split; [done|]. split.
    + by rewrite (Hopen x7b) by done.
    + by rewrite (Hopen x5b) by done.
  - apply Nat.nle_gt in Hlen. split; [lia|]. unfold detectFormat.
    rewrite bool_decide_false.
    2:{ destruct (HnoPK rest) as [H| ->]; [done|]. simpl in Hlen. lia. }
    rewrite slice_first_ten, take_app_le by lia.
    assert (exists b bs, take 10 spaces = b :: bs) as (b & bs & Hshape).
    { destruct (take 10 spaces) as [|b bs] eqn:E; [|by eauto].
      apply (f_equal length) in E. rewrite length_take in E.
      change (length (@nil byte)) with 0%nat in E. lia. }
    assert (TextDecoder_decode (take 10 spaces) = map byteZ (take 10 spaces))
      as ->.
    { rewrite Hshape. rewrite <- (app_nil_r bs) at 1.
      rewrite TextDecoder_decode_ascii.
      - by rewrite app_nil_r.
      - rewrite <- Hshape. by apply Forall_take. }
    rewrite <- (app_nil_r (map byteZ (take 10 spaces))).
    rewrite trim_spaces; [done|].
    apply Forall_map, Forall_take. eapply Forall_impl; [exact Hspaces|].
    intros c Hc. by apply isAsciiSpace_spec in Hc as (_ & ? & _).
Qed.

(** At three spaces. *)
Lemma detectFormat_white_space_window_witness :
  ((length [x20; x20; x20] <= 9)%nat
   /\ detectFormat ([x20; x20; x20] ++ x7b :: [x7d]) = json
   /\ detectFormat ([x20; x20; x20] ++ x5b :: [x7d]) = json)
  \/ ((10 <= length [x20; x20; x20])%nat
      /\ detectFormat ([x20; x20; x20] ++ [x7d]) = binary).
Proof.
  apply (detectFormat_white_space_window [x20; x20; x20] [x7d]).
  repeat constructor; right; reflexivity.
Defined.

(** ** Dispatch of [load] *)

(** A buffer that starts with the magic ['LPK\0'] is tagged [binary]; [load]
    hands it to the binary parser, which reads it from offset 4 without a
    warning, whatever JSZip and the JSON parser are. *)
Theorem load_magic_runs_binary_parser {JsonValue JsonLPK : Type}
    (JSON_parse : jsstring -> Completion JsonValue) (JSZip : JSZipLibrary)
    (parseJSONLPK : buffer -> Completion JsonLPK) (rest : buffer) :
  detectFormat (x4c :: x50 :: x4b :: x00 :: rest) = binary
  /\ parseBinaryLPK (x4c :: x50 :: x4b :: x00 :: rest) =
     ([], parseFromVersion (x4c :: x50 :: x4b :: x00 :: rest) 4)
  /\ load JSON_parse JSZip parseJSONLPK (x4c :: x50 :: x4b :: x00 :: rest) =
     (result ← parseFromVersion (x4c :: x50 :: x4b :: x00 :: rest) 4;
      Return (LoadedBinary result)).
Proof.
  assert (detectFormat (x4c :: x50 :: x4b :: x00 :: rest) = binary) as Htag.
  { by apply detectFormat_ascii_head. }
  assert (parseBinaryLPK (x4c :: x50 :: x4b :: x00 :: rest) =
          ([], parseFromVersion (x4c :: x50 :: x4b :: x00 :: rest) 4)) as Hparse.
  { unfold parseBinaryLPK. rewrite view_Return; [|lia|lia|].
    - by rewrite bool_decide_false by (by intros ?).
    - unfold byteLength. cbn [length]. lia. }
  split; [done|]. split; [done|].
  unfold load. by rewrite Htag, Hparse.
Qed.

(** A buffer that starts with [PK] is handed to the ZIP parser whatever
    follows the two bytes, so that without JSZip [load] throws the error
    that asks for the library: no such file is read as a binary table. *)
Theorem load_PK_needs_JSZip {JsonValue JsonLPK : Type}
    (JSON_parse : jsstring -> Completion JsonValue)
    (parseJSONLPK : buffer -> Completion JsonLPK) (rest : buffer) :
  detectFormat (x50 :: x4b :: rest) = zip
  /\ load JSON_parse None parseJSONLPK (x50 :: x4b :: rest)
     = Throw (Error JSZIP_REQUIRED).
Proof.
  assert (detectFormat (x50 :: x4b :: rest) = zip) as Htag.
  { unfold detectFormat. by rewrite bool_decide_true. }
  split; [done|]. unfold load. by rewrite Htag.
Qed.

(** ** The asset table and the manifest *)

Lemma readAssetTable_count (count : nat) (arrayBuffer : buffer) (offset : Z)
    (acc rows : list AssetRow) :
  readAssetTable count arrayBuffer offset acc = Return rows ->
  0 <= offset <= byteLength arrayBuffer ->
  length rows = (length acc + count)%nat
  /\ offset + 14 * Z.of_nat count <= byteLength arrayBuffer.
Proof.
  revert offset acc. induction count as [|count IH]; intros offset acc;
    cbn [readAssetTable].
  - intros [= <-] Hoff. split; lia.
  - bind_inv nameLength En. bind_inv nameBytes Eb. bind_inv type Et.
    bind_inv sz Es. bind_inv dataOff Ed.
    intros Hread Hoff.
    apply getUint_inv in En as (_ & _ & _ & Hn).
    apply view_inv in Eb as (_ & _ & _ & _).
    apply getUint_inv in Ed as (_ & Hd & _ & _).
    apply IH in Hread as [Hlen Hbound]; [|lia].
    rewrite length_app in Hlen. simpl in Hlen. split; lia.
Qed.

(** A table that is read has as many rows as its count field says, the
    count being the uint32 at offset 8 when the buffer starts with the
    magic ['LPK\0'] and at offset 4 when it does not; and the buffer holds
    the header fields and at least 14 bytes for each row: a count that the
    buffer cannot hold never yields a manifest. *)
Theorem assetTable_fits_buffer (arrayBuffer : buffer) (rows : list AssetRow) :
  assetTable arrayBuffer = Return rows ->
  exists start,
    start = (if bool_decide (String_fromCharCode (take 4 arrayBuffer) = LPK_MAGIC)
             then 4 else 0)
    /\ Z.of_nat (length rows) = fieldAt 4 arrayBuffer (start + 4)
    /\ start + 8 + 14 * Z.of_nat (length rows) <= byteLength arrayBuffer.
Proof.
  unfold assetTable. bind_inv magicBytes Em.
  apply view_inv in Em as (_ & _ & _ & ->).
  change (take (Z.to_nat 4) (drop (Z.to_nat 0) arrayBuffer)) with (take 4 arrayBuffer).
  set (start := if bool_decide (String_fromCharCode (take 4 arrayBuffer) ≠ LPK_MAGIC)
                then 0 else 4).
  assert (start = (if bool_decide (String_fromCharCode (take 4 arrayBuffer) = LPK_MAGIC)
                   then 4 else 0)) as Hstart.
  { unfold start. by repeat case_bool_decide. }
  assert (0 <= start <= 4) as Hrange.
  { unfold start. case_bool_decide; lia. }
  bind_inv v Ev. bind_inv assetCount Ec. intros Hread.
  apply getUint_inv in Ec as (_ & Hc & -> & Hn).
  apply readAssetTable_count in Hread as [Hlen Hbound]; [|lia].
  exists start. split; [done|]. simpl in Hlen. split; lia.
Qed.

(** At [sampleLPK], which starts with the magic: two rows, counted at 8. *)
Lemma assetTable_fits_buffer_witness :
  exists start,
    start = (if bool_decide (String_fromCharCode (take 4 sampleLPK) = LPK_MAGIC)
             then 4 else 0)
    /\ Z.of_nat (length sampleRows) = fieldAt 4 sampleLPK (start + 4)
    /\ start + 8 + 14 * Z.of_nat (length sampleRows) <= byteLength sampleLPK.
Proof.
  apply (assetTable_fits_buffer sampleLPK sampleRows). reflexivity.
Defined.

Lemma filter_rows_partition (rows : list AssetRow) :
  (length (filter (fun row => isModel row = true) rows)
   + length (filter (fun row => isTexture row = true) rows)
   + length (filter (fun row => isOther row = true) rows))%nat = length rows.
Proof.
  induction rows as [|row rows IH]; [done|].
  pose proof (isOther_alt row) as Ho.
  assert (isModel row = true -> isTexture row = false) as Hmt.
  { unfold isTexture. by intros ->. }
  rewrite !filter_cons.
  destruct (isModel row), (isTexture row), (isOther row); simpl in Ho;
    try done; try (by specialize (Hmt eq_refl));
    repeat case_decide; try done; simpl; lia.
Qed.

Lemma extractLoop_size (arrayBuffer : buffer) (rows : list AssetRow)
    (result result' : Assets) :
  extractLoop arrayBuffer result rows = Return result' ->
  ownData result !! js "__proto__" = None ->
  (size (ownData result')
   <= size (ownData result)
      + length (filter (fun row => isOther row = true) rows))%nat.
Proof.
  revert result. induction rows as [|row rows IH]; intros result;
    cbn [extractLoop].
  - intros [= <-] _. rewrite filter_nil. simpl. lia.
  - bind_inv result1 E1. intros Hloop Hinv.
    pose proof (extractAsset_data _ _ _ _ E1 Hinv) as Hstep.
    destruct (isOther row) eqn:Eo.
    + destruct Hstep as [_ Hcase]. rewrite filter_cons_True by done.
      case_bool_decide as Hname; destruct Hcase as [Hown _].
      * assert (ownData result1 !! js "__proto__" = None) as Hinv1
          by (by rewrite Hown).
        specialize (IH _ Hloop Hinv1). rewrite Hown in IH. simpl. lia.
      * assert (ownData result1 !! js "__proto__" = None) as Hinv1
          by (by rewrite Hown, lookup_insert_ne).
        specialize (IH _ Hloop Hinv1). rewrite Hown, map_size_insert in IH.
        destruct (ownData result !! row_name row); simpl in *; lia.
    + assert (ownData result1 = ownData result) as Hown
        by (unfold ownData; by rewrite Hstep).
      rewrite filter_cons_False by congruence.
      rewrite <- Hown. apply IH; [done|]. by rewrite Hown.
Qed.

(** When the extraction loop returns, the manifest has at most one entry
    for each row of the table: [models] and [textures] hold one element for
    each of their rows, and the keys of [data] are exactly the names of the
    remaining rows, the name [__proto__] left out (a name borne by several
    rows counts once). *)
Theorem manifest_entries_bounded (arrayBuffer : buffer) (rows : list AssetRow)
    (result : Assets) :
  extractAssets arrayBuffer rows = Return result ->
  (length (assets_models result) + length (assets_textures result)
   + size (ownData result) <= length rows)%nat
  /\ length (assets_models result)
     = length (filter (fun row => isModel row = true) rows)
  /\ length (assets_textures result)
     = length (filter (fun row => isTexture row = true) rows)
  /\ dom (ownData result)
     = list_to_set
         (row_name <$>
          filter (fun row => isOther row = true /\ row_name row ≠ js "__proto__") rows).
Proof.
  unfold extractAssets. intros Hloop.
  pose proof (extractLoop_size _ _ _ _ Hloop (lookup_empty _)) as Hsize.
  pose proof (filter_rows_partition rows) as Hpart.
  destruct (extractLoop_lists _ _ _ _ Hloop) as [-> ->].
  destruct (extractLoop_data _ _ _ _ Hloop (lookup_empty _)) as (Hproto & Hd & _).
  cbn [noAssets assets_models assets_textures app] in *.
  change (ownData noAssets) with (∅ : gmap jsstring buffer) in *.
  rewrite !length_fmap. rewrite map_size_empty in Hsize.
  split; [lia|]. split; [done|]. split; [done|].
  apply set_eq. intros name.
  rewrite elem_of_dom, elem_of_list_to_set, list_elem_of_fmap.
  destruct (decide (name = js "__proto__")) as [->|Hname].
  - rewrite Hproto. split; [by intros [? ?]|].
    intros (row & Hn & Hrow). apply list_elem_of_filter in Hrow as [[_ ?] _].
    congruence.
  - rewrite Hd by done. split.
    + destruct (lastWriter rows name) as [row|] eqn:El.
      * intros _. apply lastWriter_elem in El as (Hin & Ho & Hn).
        exists row. split; [done|]. apply list_elem_of_filter.
        split; [|done]. split; [done|congruence].
      * rewrite lookup_empty. by intros [? ?].
    + intros (row & -> & Hrow). apply list_elem_of_filter in Hrow as [[Ho _] Hin].
      destruct (lastWriter rows (row_name row)) as [row'|] eqn:El; [by eexists|].
      unfold lastWriter in El. apply last_None in El.
      exfalso. by apply (filter_nil_not_elem_of _ _ row El).
Qed.

(** At [sampleLPK]. *)
Lemma manifest_entries_bounded_witness :
  exists result,
    extractAssets sampleLPK sampleRows = Return result
    /\ (length (assets_models result) + length (assets_textures result)
        + size (ownData result) <= length sampleRows)%nat
    /\ length (assets_models result)
       = length (filter (fun row => isModel row = true) sampleRows)
    /\ length (assets_textures result)
       = length (filter (fun row => isTexture row = true) sampleRows)
    /\ dom (ownData result)
       = list_to_set
           (row_name <$>
            filter (fun row => isOther row = true /\ row_name row ≠ js "__proto__")
              sampleRows).
Proof.
  eexists. split; [reflexivity|].
  apply (manifest_entries_bounded sampleLPK sampleRows). reflexivity.
Defined.

(** ** Looking an asset up in a parsed binary file *)

Lemma find_app_none {A : Type} (p : A -> bool) (l1 l2 : list A) :
  (forall x, x ∈ l1 -> p x = false) ->
  List.find p (l1 ++ l2) = List.find p l2.
Proof.
  induction l1 as [|x l1 IH]; intros Hnone; [done|].
  simpl. rewrite (Hnone x) by apply list_elem_of_here.
  apply IH. intros y Hy. apply Hnone. by apply list_elem_of_further.
Qed.

Lemma find_none {A : Type} (p : A -> bool) (l : list A) :
  (forall x, x ∈ l -> p x = false) -> List.find p l = None.
Proof.
  intros Hnone. rewrite <- (app_nil_r l). by rewrite find_app_none.
Qed.

Lemma first_with_name (rows : list AssetRow) (row : AssetRow) :
  row ∈ rows ->
  exists pre row' post,
    rows = pre ++ row' :: post /\ row_name row' = row_name row
    /\ forall x, x ∈ pre -> row_name x ≠ row_name row.
Proof.
  induction rows as [|r rows IH]; intros Hin; [by apply elem_of_nil in Hin|].
  destruct (decide (row_name r = row_name row)) as [Heq|Hne].
  - exists [], r, rows. split; [done|]. split; [done|].
    intros x Hx. by apply elem_of_nil in Hx.
  - apply elem_of_cons in Hin as [->|Hin]; [done|].
    destruct (IH Hin) as (pre & row' & post & -> & Hname & Hpre).
    exists (r :: pre), row', post. split; [done|]. split; [done|].
    intros x [->|Hx]%elem_of_cons; [done|by apply Hpre].
Qed.

Lemma last_with_name (rows : list AssetRow) (row : AssetRow) :
  row ∈ rows ->
  exists pre row' post,
    rows = pre ++ row' :: post /\ row_name row' = row_name row
    /\ forall x, x ∈ post -> row_name x ≠ row_name row.
Proof.
  induction rows as [|r rows IH] using rev_ind; intros Hin;
    [by apply elem_of_nil in Hin|].
  destruct (decide (row_name r = row_name row)) as [Heq|Hne].
  - exists rows, r, []. split; [done|]. split; [done|].
    intros x Hx. by apply elem_of_nil in Hx.
  - apply elem_of_app in Hin as [Hin|Hin].
    + destruct (IH Hin) as (pre & row' & post & -> & Hname & Hpost).
      exists pre, row', (post ++ [r]). split; [by rewrite <- app_assoc|].
      split; [done|].
      intros x [Hx|Hx]%elem_of_app; [by apply Hpost|].
      by apply list_elem_of_singleton in Hx as ->.
    + by apply list_elem_of_singleton in Hin as ->.
Qed.

Lemma category_of_name (row1 row2 : AssetRow) :
  row_name row1 = row_name row2 ->
  isModel row1 = isModel row2 /\ isTexture row1 = isTexture row2
  /\ isOther row1 = isOther row2.
Proof. unfold isOther, isTexture, isModel. by intros ->. Qed.

(** The elements of [models] and [textures] made of rows that do not bear
    a name are passed over by [find]. *)
Lemma find_misses_rows (arrayBuffer : buffer) (keep : AssetRow -> bool)
    (rows : list AssetRow) (name : jsstring) :
  (forall x, x ∈ rows -> keep x = true -> row_name x ≠ name) ->
  forall a, a ∈ rowAsset arrayBuffer <$> filter (fun x => keep x = true) rows ->
            bool_decide (asset_filename a = name) = false.
Proof.
  intros Hrows a (x & -> & Hx)%list_elem_of_fmap.
  apply list_elem_of_filter in Hx as [Hkeep Hx].
  apply bool_decide_eq_false. simpl. by apply Hrows.
Qed.

(** [getAsset] on the manifest that [parseBinaryLPK] returns finds every
    row of the table by its name.  When several rows bear the name, a model
    or a texture is the one of the first of them, while under [data] it is
    the bytes of the last; for a row named [__proto__] these bytes are read
    from the prototype of [data]. *)
Theorem getAsset_after_parseBinaryLPK (arrayBuffer : buffer)
    (rows : list AssetRow) (warnings : list string) (result : BinaryResult)
    (row : AssetRow) :
  assetTable arrayBuffer = Return rows ->
  parseBinaryLPK arrayBuffer = (warnings, Return result) ->
  row ∈ rows ->
  exists pre row' post,
    rows = pre ++ row' :: post
    /\ row_name row' = row_name row
    /\ ((isOther row = false
         /\ (forall x, x ∈ pre -> row_name x ≠ row_name row)
         /\ getAsset (assets result) (row_name row)
            = Return (FoundAsset (rowAsset arrayBuffer row')))
        \/ (isOther row = true
            /\ (forall x, x ∈ post -> row_name x ≠ row_name row)
            /\ getAsset (assets result) (row_name row)
               = Return (DataValue (Some (rowData arrayBuffer row'))))).
Proof.
  intros Htable Hparse Hin.
  destruct (parseBinaryLPK_table_of_result arrayBuffer result) as (rows' & Ht' & Hloop).
  { by rewrite Hparse. }
  assert (rows' = rows) as -> by congruence. clear Ht'.
  unfold extractAssets in Hloop.
  destruct (extractLoop_lists _ _ _ _ Hloop) as [Hm Ht].
  destruct (extractLoop_data _ _ _ _ Hloop (lookup_empty _))
    as (Hproto & Hd & Hp & Hcreated).
  cbn [noAssets assets_models assets_textures app] in Hm, Ht.
  unfold getAsset. rewrite Hm, Ht.
  destruct (isOther row) eqn:Eo.
  - destruct (last_with_name rows row Hin) as (pre & row' & post & Hrows & Hname & Hpost).
    exists pre, row', post. split; [done|]. split; [done|].
    right. split; [done|]. split; [done|].
    destruct (category_of_name row' row Hname) as (Hcm & Hct & Hco).
    rewrite isOther_alt in Eo.
    destruct (isModel row) eqn:Em; [done|]. destruct (isTexture row) eqn:Et; [done|].
    rewrite find_none.
    2:{ apply find_misses_rows. intros x _ Hx Hn.
        destruct (category_of_name x row Hn) as (? & _ & _). congruence. }
    rewrite find_none.
    2:{ apply find_misses_rows. intros x _ Hx Hn.
        destruct (category_of_name x row Hn) as (_ & ? & _). congruence. }
    assert (lastWriter rows (row_name row) = Some row') as Hlast.
    { unfold lastWriter. rewrite Hrows.
      rewrite filter_app, filter_cons_True.
      2:{ split; [|done]. rewrite Hco, isOther_alt, Em, Et. done. }
      rewrite (filter_none _ post); [by rewrite last_snoc|].
      intros x Hx [_ Hn]. by apply (Hpost x). }
    destruct (assets_data (assets result)) as [object|] eqn:Edata.
    2:{ exfalso. destruct Hcreated as [[_ Hnone] _]; [done|].
        apply (filter_nil_not_elem_of _ _ row Hnone); [|done].
        by rewrite isOther_alt, Em, Et. }
    unfold ownData, dataPrototype in Hproto, Hd, Hp. rewrite Edata in Hproto, Hd, Hp.
    unfold Object_get.
    destruct (decide (row_name row = js "__proto__")) as [Hn|Hn].
    + rewrite Hn in *. rewrite Hproto. unfold inherited.
      assert (ArrayBuffer_prototype (js "__proto__") = NotInherited) as ->
        by (by vm_compute).
      assert (Object_prototype (js "__proto__") = ProtoAccessor) as ->
        by (by vm_compute).
      rewrite Hlast in Hp. rewrite Hp. done.
    + rewrite Hd by done. by rewrite Hlast.
  - destruct (first_with_name rows row Hin) as (pre & row' & post & Hrows & Hname & Hpre).
    exists pre, row', post. split; [done|]. split; [done|].
    left. split; [done|]. split; [done|].
    destruct (category_of_name row' row Hname) as (Hcm & Hct & Hco).
    rewrite isOther_alt in Eo. rewrite Hrows.
    destruct (isModel row) eqn:Em.
    + rewrite filter_app, filter_cons_True, fmap_app, fmap_cons by congruence.
      rewrite find_app_none.
      2:{ apply find_misses_rows. intros x Hx _. by apply Hpre. }
      cbn [List.find rowAsset asset_filename].
      by rewrite bool_decide_true.
    + destruct (isTexture row) eqn:Et; [|done].
      rewrite find_none.
      2:{ apply find_misses_rows. intros x _ Hx Hn.
          destruct (category_of_name x row Hn) as (? & _ & _). congruence. }
      rewrite filter_app, filter_cons_True, fmap_app, fmap_cons by congruence.
      rewrite find_app_none.
      2:{ apply find_misses_rows. intros x Hx _. by apply Hpre. }
      cbn [List.find rowAsset asset_filename].
      by rewrite bool_decide_true.
Qed.

(** At [sampleLPK] and its row [b]. *)
Lemma getAsset_after_parseBinaryLPK_witness :
  exists warnings result,
    parseBinaryLPK sampleLPK = (warnings, Return result)
    /\ exists pre row' post,
         sampleRows = pre ++ row' :: post
         /\ row_name row' = js "b"
         /\ ((isOther {| row_name := js "b"; row_type := 9; row_size := 3;
                         row_dataOffset := 48 |} = false
              /\ (forall x, x ∈ pre -> row_name x ≠ js "b")
              /\ getAsset (assets result) (js "b")
                 = Return (FoundAsset (rowAsset sampleLPK row')))
             \/ (isOther {| row_name := js "b"; row_type := 9; row_size := 3;
                            row_dataOffset := 48 |} = true
                 /\ (forall x, x ∈ post -> row_name x ≠ js "b")
                 /\ getAsset (assets result) (js "b")
                    = Return (DataValue (Some (rowData sampleLPK row'))))).
Proof.
  eexists _, _. split; [reflexivity|].
  eapply (getAsset_after_parseBinaryLPK sampleLPK sampleRows [] _
            {| row_name := js "b"; row_type := 9; row_size := 3; row_dataOffset := 48 |}).
  - reflexivity.
  - reflexivity.
  - apply list_elem_of_further, list_elem_of_here.
Defined.

(** A name that no row of the table bears, and that names nothing built
    in, is not found on the manifest that [parseBinaryLPK] returns:
    [getAsset] returns [null] when the table has no row outside models and
    textures (there is no [assets.data] then), and [undefined] when it has
    one. *)
Theorem getAsset_missing_name (arrayBuffer : buffer) (rows : list AssetRow)
    (warnings : list string) (result : BinaryResult) (name : jsstring) :
  assetTable arrayBuffer = Return rows ->
  parseBinaryLPK arrayBuffer = (warnings, Return result) ->
  name ∉ (row_name <$> rows) ->
  ordinaryName name ->
  getAsset (assets result) name
  = Return match filter (fun row => isOther row = true) rows with
           | [] => NullResult
           | _ :: _ => DataValue None
           end.
Proof.
  intros Htable Hparse Hname [Hobject Hbuffer].
  destruct (parseBinaryLPK_table_of_result arrayBuffer result) as (rows' & Ht' & Hloop).
  { by rewrite Hparse. }
  assert (rows' = rows) as -> by congruence. clear Ht'.
  unfold extractAssets in Hloop.
  destruct (extractLoop_lists _ _ _ _ Hloop) as [Hm Ht].
  destruct (extractLoop_data _ _ _ _ Hloop (lookup_empty _))
    as (_ & Hd & _ & Hcreated).
  cbn [noAssets assets_models assets_textures app] in Hm, Ht.
  unfold getAsset. rewrite Hm, Ht.
  rewrite !find_none
    by (apply find_misses_rows; intros x Hx _ <-;
        by apply Hname, list_elem_of_fmap_2).
  assert (name ≠ js "__proto__") as Hplain.
  { intros ->. by vm_compute in Hobject. }
  assert (ownData (assets result) !! name = None) as Hnone.
  { rewrite Hd by done. unfold lastWriter.
    rewrite filter_none; [done|].
    intros x Hx [_ <-]. by apply Hname, list_elem_of_fmap_2. }
  destruct (assets_data (assets result)) as [object|] eqn:Edata.
  - destruct (filter (fun row => isOther row = true) rows) as [|row others].
    { by destruct Hcreated as [_ Hc]; specialize (Hc (conj eq_refl eq_refl)). }
    unfold ownData in Hnone. rewrite Edata in Hnone.
    unfold Object_get, inherited. rewrite Hnone, Hobject, Hbuffer.
    by destruct (data_proto object).
  - destruct Hcreated as [Hc _]. destruct (Hc eq_refl) as [_ ->]. done.
Qed.

(** At [sampleLPK], whose row [b] is kept under [data], and the name [c]. *)
Lemma getAsset_missing_name_witness :
  exists warnings result,
    parseBinaryLPK sampleLPK = (warnings, Return result)
    /\ getAsset (assets result) (js "c") = Return (DataValue None).
Proof.
  eexists _, _. split; [reflexivity|].
  eapply (getAsset_missing_name sampleLPK sampleRows [] _ (js "c")).
  - reflexivity.
  - reflexivity.
  - intros (row & Hn & Hin)%list_elem_of_fmap.
    repeat (apply elem_of_cons in Hin as [->|Hin]; [vm_compute in Hn; discriminate|]).
    by apply elem_of_nil in Hin.
  - split; by vm_compute.
Defined.

(** ** ZIP-based files in the first loader *)

Lemma categorizeFile_json_throws {JsonValue : Type}
    (JSON_parse : jsstring -> Completion JsonValue) (result : Assets)
    (entry : jsstring * ZipObject) :
  isJsonFile entry -> exists e, categorizeFile JSON_parse result entry = Throw e.
Proof.
  destruct entry as [filename file]. intros [Hdir Hext]. simpl in Hdir, Hext.
  unfold categorizeFile. rewrite Hdir, Hext.
  destruct (zip_async file) as [content|e]; [|by exists e].
  cbn [mbind Completion_bind].
  destruct (zip_string file) as [text|e]; [|by exists e].
  cbn [mbind Completion_bind].
  destruct (JSON_parse text) as [value|e]; cbn; eauto.
Qed.

Lemma categorizeFiles_throws {JsonValue : Type}
    (JSON_parse : jsstring -> Completion JsonValue) (files : ZipFiles)
    (entry : jsstring * ZipObject) :
  entry ∈ files -> isJsonFile entry ->
  forall result, exists e, categorizeFiles JSON_parse result files = Throw e.
Proof.
  intros Hin Hjson. induction files as [|first files IH]; intros result;
    [by apply elem_of_nil in Hin|].
  cbn [categorizeFiles].
  apply elem_of_cons in Hin as [<-|Hin].
  - destruct (categorizeFile_json_throws JSON_parse result entry Hjson) as [e ->].
    by exists e.
  - destruct (categorizeFile JSON_parse result first) as [result'|e]; [|by exists e].
    cbn. by apply IH.
Qed.

(** An archive that holds a file (not a directory) with the extension json,
    such as [manifest.json] itself, is never loaded by [parseZIPLPK]: the
    call throws, whatever the other files are and whether or not the JSON
    parses. *)
Theorem parseZIPLPK_rejects_json_files {JsonValue : Type}
    (JSON_parse : jsstring -> Completion JsonValue)
    (loadAsync : buffer -> Completion ZipFiles) (arrayBuffer : buffer)
    (files : ZipFiles) (entry : jsstring * ZipObject) :
  loadAsync arrayBuffer = Return files ->
  entry ∈ files -> isJsonFile entry ->
  exists e, parseZIPLPK JSON_parse (Some loadAsync) arrayBuffer = Throw e.
Proof.
  intros Hload Hin Hjson. unfold parseZIPLPK. rewrite Hload.
  cbn [mbind Completion_bind].
  destruct (categorizeFiles_throws JSON_parse files entry Hin Hjson noAssets)
    as [e He].
  destruct (filesLookup files (js "manifest.json")) as [file|].
  - destruct (zip_string file) as [text|e']; [|by exists e'].
    cbn [mbind Completion_bind].
    destruct (JSON_parse text) as [manifest|e']; [|by exists e'].
    cbn [mbind Completion_bind]. rewrite He. by exists e.
  - cbn [mbind Completion_bind]. rewrite He. by exists e.
Qed.

(** At an archive with a [manifest.json] that parses. *)
Lemma parseZIPLPK_rejects_json_files_witness :
  exists e,
    parseZIPLPK (fun _ => Return tt) (Some (fun _ => Return archiveWithManifest)) []
    = Throw e.
Proof.
  apply (parseZIPLPK_rejects_json_files (fun _ => Return tt)
           (fun _ => Return archiveWithManifest) [] archiveWithManifest
           (js "manifest.json", plainFile [x7b; x7d])).
  - reflexivity.
  - apply list_elem_of_here.
  - split; reflexivity.
Defined.

Lemma model_not_texture (suffix : jsstring) :
  includes MODEL_EXTENSIONS suffix = true ->
  includes TEXTURE_EXTENSIONS suffix = false.
Proof.
  unfold includes at 1. rewrite bool_decide_eq_true. unfold MODEL_EXTENSIONS.
  rewrite !elem_of_cons, elem_of_nil.
  intros Hx. repeat (destruct Hx as [->|Hx]; [by vm_compute|]). done.
Qed.

Lemma filesLookup_Some (files : ZipFiles) (name : jsstring) (file : ZipObject) :
  filesLookup files name = Some file -> (name, file) ∈ files.
Proof.
  induction files as [|[filename f] files IH]; [done|]. cbn [filesLookup].
  case_bool_decide as Hname.
  - intros [= <-]. subst. apply list_elem_of_here.
  - intros H. by apply list_elem_of_further, IH.
Qed.

Lemma categorizeFiles_without_json {JsonValue : Type}
    (JSON_parse : jsstring -> Completion JsonValue) (files : ZipFiles)
    (result : Assets) :
  Forall (fun entry => ext (fst entry) ≠ js "json") files ->
  Forall isReadable files ->
  categorizeFiles JSON_parse result files =
  Return {| assets_models := assets_models result
                             ++ (fileAsset <$> filter isModelFile files);
            assets_textures := assets_textures result
                               ++ (fileAsset <$> filter isTextureFile files);
            assets_data := assets_data result |}.
Proof.
  intros Hjson Hread. revert result.
  induction files as [|[filename file] files IH]; intros result.
  - cbn [categorizeFiles]. rewrite !filter_nil, !fmap_nil, !app_nil_r.
    by destruct result.
  - apply Forall_cons in Hjson as [Hj Hjson].
    apply Forall_cons in Hread as [Hr Hread]. simpl in Hj.
    cbn [categorizeFiles]. unfold categorizeFile.
    destruct (zip_dir file) eqn:Hdir.
    + cbn [mbind Completion_bind]. rewrite IH by done.
      rewrite !filter_cons_False; [done| |];
        unfold isTextureFile, isModelFile; simpl; rewrite Hdir; by intros [? _].
    + destruct (Hr Hdir) as [content Hcontent]. simpl in Hcontent.
      rewrite Hcontent. cbn [mbind Completion_bind].
      assert (fileAsset (filename, file)
              = {| asset_filename := filename; asset_data := content;
                   asset_type := ext filename |}) as Hasset.
      { unfold fileAsset, fileContent. simpl. by rewrite Hcontent. }
      destruct (includes MODEL_EXTENSIONS (ext filename)) eqn:Em.
      * cbn [mbind Completion_bind]. rewrite IH by done.
        cbn [assets_models assets_textures assets_data].
        rewrite filter_cons_True by done.
        rewrite filter_cons_False.
        2:{ unfold isTextureFile. simpl. rewrite (model_not_texture _ Em).
            by intros [_ ?]. }
        by rewrite fmap_cons, Hasset, <- app_assoc.
      * destruct (includes TEXTURE_EXTENSIONS (ext filename)) eqn:Et.
        -- cbn [mbind Completion_bind]. rewrite IH by done.
           cbn [assets_models assets_textures assets_data].
           rewrite filter_cons_False.
           2:{ unfold isModelFile. simpl. rewrite Em. by intros [_ ?]. }
           rewrite filter_cons_True by done.
           by rewrite fmap_cons, Hasset, <- app_assoc.
        -- rewrite bool_decide_false by done.
           cbn [mbind Completion_bind]. rewrite IH by done.
           rewrite !filter_cons_False; [done| |];
             unfold isTextureFile, isModelFile; simpl; rewrite ?Em, ?Et;
             by intros [_ ?].
Qed.

(** When no name of the archive has the extension json and every file can
    be read, [parseZIPLPK] returns: [models] holds the model files and
    [textures] the texture files, in the order of the archive, with their
    bytes; directories and files of any other extension leave nothing in
    the manifest; there is no [data] and no metadata. *)
Theorem parseZIPLPK_without_json {JsonValue : Type}
    (JSON_parse : jsstring -> Completion JsonValue)
    (loadAsync : buffer -> Completion ZipFiles) (arrayBuffer : buffer)
    (files : ZipFiles) :
  loadAsync arrayBuffer = Return files ->
  Forall (fun entry => ext (fst entry) ≠ js "json") files ->
  Forall isReadable files ->
  parseZIPLPK JSON_parse (Some loadAsync) arrayBuffer =
  Return {| zip_assets :=
              {| assets_models := fileAsset <$> filter isModelFile files;
                 assets_textures := fileAsset <$> filter isTextureFile files;
                 assets_data := None |};
            zip_metadata := None |}.
Proof.
  intros Hload Hjson Hread. unfold parseZIPLPK. rewrite Hload.
  cbn [mbind Completion_bind].
  destruct (filesLookup files (js "manifest.json")) as [file|] eqn:Hm.
  { apply filesLookup_Some in Hm. rewrite Forall_forall in Hjson.
    by destruct (Hjson _ Hm). }
  cbn [mbind Completion_bind].
  by rewrite categorizeFiles_without_json.
Qed.

Lemma parseZIPLPK_without_json_witness :
  parseZIPLPK (fun _ => Return tt) (Some (fun _ => Return archiveWithoutJson)) [] =
  Return {| zip_assets :=
              {| assets_models := fileAsset <$> filter isModelFile archiveWithoutJson;
                 assets_textures :=
                   fileAsset <$> filter isTextureFile archiveWithoutJson;
                 assets_data := None |};
            zip_metadata := None |}.
Proof.
  apply (parseZIPLPK_without_json (fun _ => Return tt)
           (fun _ => Return archiveWithoutJson) [] archiveWithoutJson).
  - reflexivity.
  - repeat constructor; vm_compute; discriminate.
  - repeat constructor; intros _; eexists; reflexivity.
Defined.

(** ** The second loader *)

Lemma byteHex_unhex (b : byte) (rest : jsstring) :
  unhex (byteHex b ++ rest) = byteZ b :: unhex rest.
Proof. destruct b; reflexivity. Qed.

Lemma byteHex_length (b : byte) : length (byteHex b) = 2%nat.
Proof. destruct b; reflexivity. Qed.

Lemma unhex_concat (bs : buffer) :
  unhex (concat (map byteHex bs)) = map byteZ bs
  /\ length (concat (map byteHex bs)) = (2 * length bs)%nat.
Proof.
  induction bs as [|b bs [IH1 IH2]]; [done|].
  cbn [map concat]. rewrite byteHex_unhex, IH1, length_app, byteHex_length, IH2.
  split; [done|]. simpl. lia.
Qed.

(** [parseLPKStructure] throws a RangeError on a buffer of fewer than 8
    bytes; on any other buffer it returns, the header is 16 characters,
    and the sizes agree with the buffer and with what [extractZipData]
    gives: [zipOffset + zipSize = totalSize] and [zipSize] is the length of
    the extracted ZIP data. *)
Theorem parseLPKStructure_sizes (arrayBuffer : buffer) :
  (byteLength arrayBuffer < 8 /\ parseLPKStructure arrayBuffer = Throw RangeError)
  \/ (8 <= byteLength arrayBuffer
      /\ exists structure,
           parseLPKStructure arrayBuffer = Return structure
           /\ length (lpk_header structure) = 16%nat
           /\ lpk_totalSize structure = byteLength arrayBuffer
           /\ lpk_zipOffset structure + lpk_zipSize structure
              = lpk_totalSize structure
           /\ lpk_zipSize structure = byteLength (extractZipData arrayBuffer)).
Proof.
  unfold parseLPKStructure.
  destruct (decide (byteLength arrayBuffer < 8)) as [Hshort|Hlong].
  - left. split; [done|]. unfold Uint8Array_view.
    destruct (0 + 8 <=? byteLength arrayBuffer) eqn:E; [lia|]. done.
  - right. split; [lia|]. rewrite view_Return by lia.
    cbn [mbind Completion_bind]. eexists. split; [done|].
    cbn [lpk_header lpk_totalSize lpk_zipOffset lpk_zipSize].
    destruct (unhex_concat (take (Z.to_nat 8) (drop (Z.to_nat 0) arrayBuffer)))
      as [_ ->].
    unfold extractZipData. rewrite sliceFrom_drop by lia.
    unfold byteLength in *. rewrite length_take, !length_drop.
    repeat split; lia.
Qed.

(** The header string of [parseLPKStructure] is the first eight bytes of
    the buffer in hex: reading the digits back gives those bytes, so that
    two buffers have the same header string only when their first eight
    bytes are the same. *)
Theorem parseLPKStructure_header_reads_back (arrayBuffer : buffer) :
  8 <= byteLength arrayBuffer ->
  exists structure,
    parseLPKStructure arrayBuffer = Return structure
    /\ unhex (lpk_header structure) = map byteZ (take 8 arrayBuffer).
Proof.
  intros Hlen. unfold parseLPKStructure. rewrite view_Return by lia.
  cbn [mbind Completion_bind]. eexists. split; [done|].
  cbn [lpk_header]. by destruct (unhex_concat (take (Z.to_nat 8)
    (drop (Z.to_nat 0) arrayBuffer))) as [-> _].
Qed.

(** At the header B8 FB 46 7E 00 00 00 00. *)
Lemma parseLPKStructure_header_reads_back_witness :
  exists structure,
    parseLPKStructure lpkHeader = Return structure
    /\ unhex (lpk_header structure) = map byteZ (take 8 lpkHeader).
Proof.
  apply (parseLPKStructure_header_reads_back lpkHeader).
  vm_compute. discriminate.
Defined.

Lemma setProperty_fresh {V : Type} (obj : list (jsstring * V)) (key : jsstring)
    (value : V) :
  key ∉ (fst <$> obj) -> setProperty obj key value = obj ++ [(key, value)].
Proof.
  induction obj as [|[k v] obj IH]; intros Hfresh; [done|].
  rewrite fmap_cons in Hfresh. apply not_elem_of_cons in Hfresh as [Hk Hfresh].
  cbn [setProperty]. rewrite bool_decide_false by (by intros ->).
  by rewrite IH.
Qed.

Lemma foldl_extractFile (files : ZipFiles) (assets : ExtractedFiles) :
  NoDup (fst <$> files) ->
  (forall entry, entry ∈ files -> fst entry ∉ (fst <$> files_own assets)) ->
  foldl extractFile assets files =
  {| files_own :=
       files_own assets
       ++ (zipAssetOf <$>
           filter (fun entry => zip_dir (snd entry) = false
                                /\ fst entry ≠ js "__proto__") files);
     files_proto :=
       match last (filter (fun entry => zip_dir (snd entry) = false
                                        /\ fst entry = js "__proto__") files) with
       | Some entry => Some (snd (zipAssetOf entry))
       | None => files_proto assets
       end |}.
Proof.
  revert assets. induction files as [|[filename file] files IH];
    intros assets Hnodup Hfresh.
  - rewrite !filter_nil, fmap_nil, app_nil_r. by destruct assets.
  - rewrite fmap_cons in Hnodup. apply NoDup_cons in Hnodup as [Hfirst Hnodup].
    cbn [foldl]. unfold extractFile at 2.
    destruct (zip_dir file) eqn:Hdir.
    + rewrite !filter_cons_False by (simpl; intros [? _]; congruence).
      apply IH; [done|]. intros entry Hentry.
      by apply Hfresh, list_elem_of_further.
    + assert (filename ∉ (fst <$> files_own assets)) as Hnew.
      { apply (Hfresh (filename, file)), list_elem_of_here. }
      set (element := match zip_async file with
                      | Return content =>
                          ExtractedAsset filename content (byteLength content)
                      | Throw error => EncryptedAsset filename error
                      end).
      assert (match zip_async file with
              | Return content =>
                  assignFile assets filename
                    (ExtractedAsset filename content (byteLength content))
              | Throw error => assignFile assets filename (EncryptedAsset filename error)
              end = assignFile assets filename element) as ->.
      { unfold element. by destruct (zip_async file). }
      assert (zipAssetOf (filename, file) = (filename, element)) as Helement.
      { unfold zipAssetOf, element. simpl. by destruct (zip_async file). }
      unfold assignFile. case_bool_decide as Hname.
      * rewrite filter_cons_False by (simpl; by intros [_ ?]).
        rewrite filter_cons_True by done.
        rewrite IH; [|done|].
        2:{ intros entry Hentry. by apply Hfresh, list_elem_of_further. }
        cbn [files_own files_proto]. rewrite last_cons.
        destruct (last _); [done|]. by rewrite Helement.
      * rewrite filter_cons_True by done.
        rewrite filter_cons_False by (simpl; by intros [_ ?]).
        rewrite setProperty_fresh by done.
        rewrite IH; [|done|].
        2:{ intros entry Hentry. cbn [files_own].
            rewrite fmap_app. intros [Hold|Hsame]%elem_of_app.
            - by apply (Hfresh entry); [apply list_elem_of_further|].
            - apply list_elem_of_singleton in Hsame. simpl in Hsame.
              apply Hfirst. simpl. rewrite <- Hsame.
              by apply list_elem_of_fmap_2. }
        cbn [files_own files_proto]. rewrite fmap_cons, Helement.
        by rewrite <- app_assoc.
Qed.

(** Once JSZip has opened the archive, [loadZipContents] returns whatever
    the files are: the object it returns has one entry for each file that
    is not a directory and is not named [__proto__], in the order of the
    archive, a file that cannot be read being kept as an [encrypted] entry
    with its error instead of ending the call; a file named [__proto__]
    leaves no entry, its element becomes the prototype of the object. *)
Theorem loadZipContents_keeps_unreadable_files
    (loadAsync : buffer -> Completion ZipFiles) (zipData : buffer)
    (password : option jsstring) (files : ZipFiles) :
  loadAsync zipData = Return files ->
  NoDup (fst <$> files) ->
  loadZipContents (Some loadAsync) zipData password =
  Return {| files_own :=
              zipAssetOf <$>
              filter (fun entry => zip_dir (snd entry) = false
                                   /\ fst entry ≠ js "__proto__") files;
            files_proto :=
              match last (filter (fun entry => zip_dir (snd entry) = false
                                               /\ fst entry = js "__proto__") files) with
              | Some entry => Some (snd (zipAssetOf entry))
              | None => None
              end |}.
Proof.
  intros Hload Hnodup. unfold loadZipContents. rewrite Hload.
  cbn [mbind Completion_bind]. rewrite foldl_extractFile; [done|done|].
  intros entry _ Hin. by apply elem_of_nil in Hin.
Qed.

(** At an archive of three files, the second of which is named
    [__proto__]: two entries are returned. *)
Lemma loadZipContents_keeps_unreadable_files_witness :
  loadZipContents (Some (fun _ => Return protoArchive)) [] None =
  Return {| files_own := [(js "a.land", ExtractedAsset (js "a.land") [x01] 1);
                          (js "b.editor", ExtractedAsset (js "b.editor") [x03] 1)];
            files_proto := Some (ExtractedAsset (js "__proto__") [x02] 1) |}.
Proof.
  apply (loadZipContents_keeps_unreadable_files (fun _ => Return protoArchive) [] None
           protoArchive).
  - reflexivity.
  - vm_compute. repeat constructor; intros H;
      repeat (apply elem_of_cons in H as [H|H]; [discriminate|]);
      by apply elem_of_nil in H.
Defined.

Lemma endsWith_last (s stem : jsstring) (c : Z) :
  endsWith s (stem ++ [c]) = true -> last s = Some c.
Proof.
  unfold endsWith. rewrite bool_decide_eq_true. intros [k ->].
  by rewrite app_assoc, last_snoc.
Qed.

Lemma suffixes_exclusive (s : jsstring) :
  (endsWith s (js ".meta") = true -> endsWith s (js ".land") = false
                                     /\ endsWith s (js ".editor") = false)
  /\ (endsWith s (js ".land") = true -> endsWith s (js ".editor") = false).
Proof.
  split; [intros Hmeta; split|intros Hland]; apply not_true_is_false; intros Hother.
  - apply (endsWith_last s (js ".met") 97) in Hmeta.
    apply (endsWith_last s (js ".lan") 100) in Hother. congruence.
  - apply (endsWith_last s (js ".met") 97) in Hmeta.
    apply (endsWith_last s (js ".edito") 114) in Hother. congruence.
  - apply (endsWith_last s (js ".lan") 100) in Hland.
    apply (endsWith_last s (js ".edito") 114) in Hother. congruence.
Qed.

Lemma foldl_parseAsset_by_suffix {JsonValue : Type}
    (JSON_parse : jsstring -> Completion JsonValue)
    (loaded : LoadedAssets JsonValue) (assets : list (jsstring * ZipAsset)) :
  let result := foldl (parseAsset JSON_parse) loaded assets in
  loaded_models result
  = loaded_models loaded ++ (parseLandFile <$> extractedWith (js ".land") assets)
  /\ loaded_materials result
     = loaded_materials loaded
       ++ (parseEditorFile <$> extractedWith (js ".editor") assets)
  /\ loaded_metadata result
     = match last (extractedWith (js ".meta") assets) with
       | Some content => Some (parseMetaFile JSON_parse content)
       | None => loaded_metadata loaded
       end
  /\ loaded_textures result = loaded_textures loaded
  /\ loaded_animations result = loaded_animations loaded.
Proof.
  cbv zeta. unfold extractedWith. revert loaded.
  induction assets as [|[filename asset] assets IH]; intros loaded.
  - cbn. by rewrite !app_nil_r.
  - cbn [foldl omap list_omap fst snd].
    destruct (IH (parseAsset JSON_parse loaded (filename, asset)))
      as (-> & -> & -> & -> & ->). clear IH.
    unfold parseAsset.
    destruct asset as [name content size|name error]; [|done].
    destruct (suffixes_exclusive filename) as [Hmeta Hland].
    destruct (endsWith filename (js ".meta")) eqn:Em.
    + destruct (Hmeta eq_refl) as [-> ->].
      cbn. rewrite last_cons.
      repeat split; try done. by destruct (last _).
    + destruct (endsWith filename (js ".land")) eqn:El.
      * rewrite (Hland eq_refl). cbn. by rewrite <- app_assoc.
      * destruct (endsWith filename (js ".editor")) eqn:Ee; cbn;
          [by rewrite <- app_assoc|done].
Qed.

(** [parseAssets] adds to [models] the files whose name ends with [.land]
    and to [materials] those whose name ends with [.editor], in the order
    of the archive and after what was loaded before; the metadata is that
    of the last [.meta] file, or what it was when there is none; files
    that could not be read are passed over, and [textures] and
    [animations] are never touched. *)
Theorem parseAssets_by_suffix {JsonValue : Type}
    (JSON_parse : jsstring -> Completion JsonValue)
    (loaded : LoadedAssets JsonValue) (assets : list (jsstring * ZipAsset)) :
  loaded_models (parseAssets JSON_parse loaded assets)
  = loaded_models loaded ++ (parseLandFile <$> extractedWith (js ".land") assets)
  /\ loaded_materials (parseAssets JSON_parse loaded assets)
     = loaded_materials loaded
       ++ (parseEditorFile <$> extractedWith (js ".editor") assets)
  /\ loaded_metadata (parseAssets JSON_parse loaded assets)
     = match last (extractedWith (js ".meta") assets) with
       | Some content => Some (parseMetaFile JSON_parse content)
       | None => loaded_metadata loaded
       end
  /\ loaded_textures (parseAssets JSON_parse loaded assets) = loaded_textures loaded
  /\ loaded_animations (parseAssets JSON_parse loaded assets)
     = loaded_animations loaded.
Proof. exact (foldl_parseAsset_by_suffix JSON_parse loaded assets). Qed.

(** A file named [__proto__] has none of the suffixes, so that the
    entries of the object are all the readable files with a suffix. *)
Lemma extractedWith_zipAssetOf (suffix : jsstring) (files : ZipFiles) :
  endsWith (js "__proto__") suffix = false ->
  extractedWith suffix
    (zipAssetOf <$>
     filter (fun entry => zip_dir (snd entry) = false
                          /\ fst entry ≠ js "__proto__") files)
  = readFilesWith suffix files.
Proof.
  intros Hsuffix. unfold extractedWith, readFilesWith.
  induction files as [|[filename file] files IH]; [done|].
  cbn [omap list_omap fst snd]. destruct (zip_dir file) eqn:Hdir.
  - by rewrite filter_cons_False by (simpl; intros [? _]; congruence).
  - destruct (decide (filename = js "__proto__")) as [->|Hname].
    + rewrite filter_cons_False by (simpl; by intros [_ ?]).
      rewrite Hsuffix, IH. by destruct (zip_async file).
    + rewrite filter_cons_True by done. rewrite fmap_cons.
      cbn [omap list_omap]. rewrite IH. unfold zipAssetOf. cbn [fst snd].
      by destruct (zip_async file).
Qed.

(** [loadLPK] fails before anything is read when the file has fewer than
    the eight bytes of the header (RangeError of the header view, whatever
    the library is), and with the error that names JSZip when the file is
    long enough and the library is missing. *)
Theorem loadLPK_failures {JsonValue : Type}
    (JSON_parse : jsstring -> Completion JsonValue) (JSZip : JSZipLibrary)
    (loaded : LoadedAssets JsonValue) (lpkFile : buffer)
    (password : option jsstring) :
  (byteLength lpkFile < 8
   /\ loadLPK JSON_parse JSZip loaded lpkFile password = Throw RangeError)
  \/ (8 <= byteLength lpkFile
      /\ loadLPK JSON_parse None loaded lpkFile password
         = Throw (Error JSZIP_IS_REQUIRED)).
Proof.
  unfold loadLPK, parseLPKStructure, Uint8Array_view.
  destruct (decide (byteLength lpkFile < 8)) as [Hshort|Hlong]; [left|right].
  - split; [done|].
    replace (0 + 8 <=? byteLength lpkFile) with false by (symmetry; lia).
    done.
  - split; [lia|].
    replace (0 + 8 <=? byteLength lpkFile) with true by (symmetry; lia).
    done.
Qed.

(** When the file has its eight bytes of header and JSZip opens what
    follows them, [loadLPK] returns: the terrains read from the [.land]
    files and the materials read from the [.editor] files of the archive
    are added, in the order of the archive, to what was loaded before;
    the metadata is that of the last readable [.meta] file; a file that
    cannot be read changes nothing. *)
Theorem loadLPK_reads_archive {JsonValue : Type}
    (JSON_parse : jsstring -> Completion JsonValue)
    (loadAsync : buffer -> Completion ZipFiles)
    (loaded : LoadedAssets JsonValue) (lpkFile : buffer)
    (password : option jsstring) (files : ZipFiles) :
  8 <= byteLength lpkFile ->
  loadAsync (extractZipData lpkFile) = Return files ->
  NoDup (fst <$> files) ->
  exists result,
    loadLPK JSON_parse (Some loadAsync) loaded lpkFile password = Return result
    /\ loaded_models result
       = loaded_models loaded
         ++ (parseLandFile <$> readFilesWith (js ".land") files)
    /\ loaded_materials result
       = loaded_materials loaded
         ++ (parseEditorFile <$> readFilesWith (js ".editor") files)
    /\ loaded_metadata result
       = match last (readFilesWith (js ".meta") files) with
         | Some content => Some (parseMetaFile JSON_parse content)
         | None => loaded_metadata loaded
         end
    /\ loaded_textures result = loaded_textures loaded
    /\ loaded_animations result = loaded_animations loaded.
Proof.
  intros Hlen Hload Hnodup. unfold loadLPK, parseLPKStructure.
  rewrite view_Return by lia. cbn [mbind Completion_bind].
  unfold loadZipContents. rewrite Hload. cbn [mbind Completion_bind].
  eexists. split; [done|].
  rewrite foldl_extractFile;
    [|done|by intros entry _ Hin; apply elem_of_nil in Hin].
  cbn [files_own noFiles app]. unfold parseAssets.
  rewrite <- !extractedWith_zipAssetOf by (by vm_compute).
  apply foldl_parseAsset_by_suffix.
Qed.

(** The header B8 FB 46 7E 00 00 00 00 and an archive of three files, the
    last of which cannot be read. *)
Lemma loadLPK_reads_archive_witness :
  exists result,
    loadLPK (fun _ => Throw SyntaxError) (Some (fun _ => Return lpkArchive))
      nothingLoaded lpkHeader None = Return result
    /\ loaded_models result
       = loaded_models nothingLoaded
         ++ (parseLandFile <$> readFilesWith (js ".land") lpkArchive)
    /\ loaded_materials result
       = loaded_materials nothingLoaded
         ++ (parseEditorFile <$> readFilesWith (js ".editor") lpkArchive)
    /\ loaded_metadata result
       = match last (readFilesWith (js ".meta") lpkArchive) with
         | Some content =>
             Some (parseMetaFile (fun _ => Throw SyntaxError) content)
         | None => loaded_metadata nothingLoaded
         end
    /\ loaded_textures result = loaded_textures nothingLoaded
    /\ loaded_animations result = loaded_animations nothingLoaded.
Proof.
  apply (loadLPK_reads_archive (fun _ => Throw SyntaxError)
           (fun _ => Return lpkArchive) nothingLoaded lpkHeader None lpkArchive).
  - vm_compute. discriminate.
  - reflexivity.
  - vm_compute. repeat constructor; intros H;
      repeat (apply elem_of_cons in H as [H|H]; [discriminate|]);
      by apply elem_of_nil in H.
Defined.

(** ** The search for readable strings *)

Lemma pushIfLong_app (minLength : Z) (strings : list jsstring) (current : jsstring) :
  pushIfLong minLength strings current
  = strings ++ pushIfLong minLength [] current.
Proof.
  unfold pushIfLong. destruct (minLength <=? _); [done|by rewrite app_nil_r].
Qed.

Lemma extractStringsLoop_app (minLength : Z) (data : buffer) (current : jsstring)
    (strings : list jsstring) :
  extractStringsLoop minLength data current strings
  = strings ++ extractStringsLoop minLength data current [].
Proof.
  revert current strings. induction data as [|b rest IH]; intros current strings.
  - apply pushIfLong_app.
  - cbn [extractStringsLoop]. destruct (isPrintable (byteZ b)); [apply IH|].
    rewrite IH, (IH [] (pushIfLong minLength [] current)), app_assoc.
    by rewrite <- pushIfLong_app.
Qed.

Lemma extractStringsLoop_found (minLength : Z) (data : buffer) (current : jsstring)
    (strings : list jsstring) :
  Forall (fun c => isPrintable c = true) current ->
  Forall (isFoundString minLength) strings ->
  Forall (isFoundString minLength)
    (extractStringsLoop minLength data current strings).
Proof.
  assert (forall current strings,
            Forall (fun c => isPrintable c = true) current ->
            Forall (isFoundString minLength) strings ->
            Forall (isFoundString minLength) (pushIfLong minLength strings current))
    as Hpush.
  { intros cur strs Hcur Hstrs. unfold pushIfLong.
    destruct (minLength <=? Z.of_nat (length cur)) eqn:E; [|done].
    apply Forall_app. split; [done|]. apply Forall_singleton. split; [lia|done]. }
  revert current strings. induction data as [|b rest IH];
    intros current strings Hcur Hstrs; [by apply Hpush|].
  cbn [extractStringsLoop]. destruct (isPrintable (byteZ b)) eqn:E.
  - apply IH; [|done]. apply Forall_app. split; [done|by apply Forall_singleton].
  - apply IH; [done|by apply Hpush].
Qed.

(** [extractStrings] never returns more than twenty strings, and each one
    is made of printable ASCII characters only (32 to 126) and has at
    least [minLength] of them. *)
Theorem extractStrings_sound (data : buffer) (minLength : Z) :
  Forall (isFoundString minLength) (extractStrings data minLength)
  /\ (length (extractStrings data minLength) <= 20)%nat.
Proof.
  unfold extractStrings. split.
  - apply Forall_take. by apply extractStringsLoop_found.
  - rewrite length_take. lia.
Qed.

Lemma extractStringsLoop_run (minLength : Z) (run : buffer) (current : jsstring)
    (data : buffer) :
  Forall (fun b => isPrintable (byteZ b) = true) run ->
  extractStringsLoop minLength (run ++ data) current []
  = extractStringsLoop minLength data (current ++ map byteZ run) [].
Proof.
  intros Hrun. revert current. induction Hrun as [|b run Hb Hrun IH]; intros current.
  - by rewrite app_nil_r.
  - cbn [app extractStringsLoop map]. rewrite Hb, IH.
    by rewrite <- app_assoc.
Qed.

(** A run of printable bytes that ends at a byte that is not printable, or
    at the end of the data, is one string: it is kept when it has
    [minLength] characters and dropped otherwise, and the search goes on
    after the byte that ended it as it would on those bytes alone. *)
Theorem extractStrings_runs (minLength : Z) (run : buffer) (sep : byte)
    (rest : buffer) :
  Forall (fun b => isPrintable (byteZ b) = true) run ->
  isPrintable (byteZ sep) = false ->
  extractStrings (run ++ sep :: rest) minLength
  = take 20 (pushIfLong minLength [] (map byteZ run)
             ++ extractStringsLoop minLength rest [] [])
  /\ extractStrings run minLength = pushIfLong minLength [] (map byteZ run).
Proof.
  intros Hrun Hsep. unfold extractStrings. split.
  - rewrite extractStringsLoop_run by done. cbn [extractStringsLoop app].
    rewrite Hsep. by rewrite extractStringsLoop_app.
  - rewrite <- (app_nil_r run) at 1. rewrite extractStringsLoop_run by done.
    cbn [extractStringsLoop app]. unfold pushIfLong.
    by destruct (minLength <=? _).
Qed.

(** The text LAND, a zero byte and the text ab, with [minLength] 4. *)
Lemma extractStrings_runs_witness :
  extractStrings ([x4c; x41; x4e; x44] ++ x00 :: [x61; x62]) 4
  = take 20 (pushIfLong 4 [] (map byteZ [x4c; x41; x4e; x44])
             ++ extractStringsLoop 4 [x61; x62] [] [])
  /\ extractStrings [x4c; x41; x4e; x44] 4
     = pushIfLong 4 [] (map byteZ [x4c; x41; x4e; x44]).
Proof.
  apply (extractStrings_runs 4 [x4c; x41; x4e; x44] x00 [x61; x62]).
  - repeat constructor.
  - reflexivity.
Defined.

Lemma readableLoop_extractStringsLoop (data : buffer) (current : jsstring)
    (strings : list jsstring) :
  let bytes := map (fun b => Some (byteZ b)) data in
  extractStringsLoop 4 data current strings
  = pushIfLong 4 (fst (readableLoop bytes current strings))
                 (snd (readableLoop bytes current strings)).
Proof.
  cbv zeta. revert current strings.
  induction data as [|b rest IH]; intros current strings; [done|].
  cbn [extractStringsLoop map readableLoop from_option default].
  destruct (isPrintable (byteZ b)); apply IH.
Qed.

Lemma window_in_bounds (zipData : buffer) (size : nat) (offset : Z) :
  0 <= offset -> offset + Z.of_nat size <= byteLength zipData ->
  map (fun i => byteAt zipData (offset + Z.of_nat i)) (seq 0 size)
  = map (fun b => Some (byteZ b)) (take size (drop (Z.to_nat offset) zipData)).
Proof.
  revert offset. induction size as [|size IH]; intros offset Hoff Hend; [done|].
  unfold byteLength in Hend.
  destruct (lookup_lt_is_Some_2 zipData (Z.to_nat offset)) as [b Hb]; [lia|].
  rewrite (drop_S _ _ _ Hb). cbn [seq map take].
  f_equal.
  - unfold byteAt. replace (offset + Z.of_nat 0) with offset by lia.
    destruct (offset <? 0) eqn:E; [lia|]. by rewrite Hb.
  - rewrite <- seq_shift, map_map.
    replace (S (Z.to_nat offset)) with (Z.to_nat (offset + 1)) by lia.
    rewrite <- IH by (unfold byteLength; lia).
    apply map_ext. intros i. f_equal. lia.
Qed.

(** The script reads the first bytes of a payload (a thousand at most)
    with the loop of [extractStrings] but without its last test: when the
    window lies inside the buffer, the strings it reports are those the
    loop of [extractStrings] finds in the window with [minLength] 4,
    except for the run that is still open when the window ends. *)
Theorem readableStrings_miss_open_run (zipData : buffer) (file : FileEntry) :
  0 <= file_offset file ->
  file_offset file + Z.min 1000 (file_compressedSize file) <= byteLength zipData ->
  extractStringsLoop 4
    (bytesAt zipData (file_offset file) (Z.min 1000 (file_compressedSize file)))
    [] []
  = pushIfLong 4 (readableStrings zipData file) (openRun zipData file).
Proof.
  intros Hoff Hend. unfold readableStrings, openRun, payloadWindow, bytesAt.
  destruct (decide (Z.min 1000 (file_compressedSize file) <= 0)) as [Hnone|Hsome].
  - by replace (Z.to_nat (Z.min 1000 (file_compressedSize file))) with 0%nat by lia.
  - rewrite window_in_bounds by lia.
    apply readableLoop_extractStringsLoop.
Qed.

(** The payload LAND that ends the buffer: the script reports no string,
    the loop of [extractStrings] finds LAND. *)
Lemma readableStrings_miss_open_run_witness :
  extractStringsLoop 4 (bytesAt textPayload 1 4) [] [] = [js "LAND"]
  /\ readableStrings textPayload textEntry = []
  /\ extractStringsLoop 4
       (bytesAt textPayload (file_offset textEntry)
          (Z.min 1000 (file_compressedSize textEntry))) [] []
     = pushIfLong 4 (readableStrings textPayload textEntry)
         (openRun textPayload textEntry).
Proof.
  split; [reflexivity|]. split; [reflexivity|].
  apply (readableStrings_miss_open_run textPayload textEntry).
  - vm_compute. discriminate.
  - vm_compute. discriminate.
Defined.
